(** * Laundromat Finder backend: the search pipeline of [main.py]

    A shallow embedding of [geocode_location], [build_address] and
    [search_laundromats] together with the properties the specification
    states about them.

    Conventions.
    - Python [str] values are [string]s (UTF-8 bytes; byte-wise
      lexicographic order on UTF-8 is code-point order, which is how Python
      compares [str]).
    - Python [int] is [Z]; Python [float] is the kernel's binary64 [float].
    - [Optional[T]] is [option T], [None] being Python's [None].
    - A [dict] of OSM tags is a [gmap string string]: OSM tag keys and
      values are strings.
    - A raised exception is the [Raise] branch of [outcome]. *)

From stdpp Require Import gmap strings list sorting.
From Stdlib Require Import Floats ZArith Ascii DecimalString.

Local Open Scope Z_scope.

(** ** Python runtime: values and builtins used by the program *)

Module Py.

Inductive exn : Type :=
| TypeError
| ValueError
| OverflowError
| AttributeError
| RequestException                                  (* raised by [requests] *)
| RequestValidationError                            (* FastAPI, status 422 *)
| HTTPException (status_code : Z) (detail : string).

Inductive outcome (A : Type) : Type :=
| Return (a : A)
| Raise (e : exn).
Arguments Return {A} a.
Arguments Raise {A} e.

(** A JSON number as [json.loads] delivers it. *)
Inductive number : Type :=
| Int (z : Z)
| Float (f : float).

(** [bool(v)] for an [Optional[str]]: [None] and the empty string are
    falsy.  [truthy_str v] is the string itself when [v] is truthy. *)
Definition truthy_str (v : option string) : option string :=
  match v with
  | Some s => if String.eqb s EmptyString then None else Some s
  | None => None
  end.

Definition truthy (v : option string) : bool :=
  match truthy_str v with Some _ => true | None => false end.

(** [a or b]. *)
Definition or_ (a b : option string) : option string :=
  if truthy a then a else b.

(** [sep.join(parts)]. *)
Fixpoint join (sep : string) (parts : list string) : string :=
  match parts with
  | [] => EmptyString
  | p :: ps =>
      match ps with
      | [] => p
      | _ :: _ => p +:+ sep +:+ join sep ps
      end
  end.

(** [str(n)] for an [int]. *)
Definition str_int (n : Z) : string := NilZero.string_of_int (Z.to_int n).

(** [str(v)] as an f-string field renders an [Optional[str]] and an
    [Optional[int]]. *)
Definition str_opt (v : option string) : string :=
  match v with Some s => s | None => "None" end.

Definition str_opt_int (v : option Z) : string :=
  match v with Some n => str_int n | None => "None" end.

(** [int(f)]: truncation toward zero; infinities and NaN raise. *)
Definition int_of_float (f : float) : outcome Z :=
  match Prim2SF f with
  | S754_zero _ => Return 0
  | S754_finite s m e =>
      let a := if 0 <=? e then Z.pos m * 2 ^ e else Z.pos m / 2 ^ (- e) in
      Return (if s then - a else a)
  | S754_infinity _ => Raise OverflowError
  | S754_nan => Raise ValueError
  end.

(** [l[:n]]: a negative [n] counts from the end. *)
Definition slice_to {A : Type} (n : Z) (l : list A) : list A :=
  if 0 <=? n then take (Z.to_nat n) l
  else take (length l - Z.to_nat (- n))%nat l.

(** [len(l)]. *)
Definition len {A : Type} (l : list A) : Z := Z.of_nat (length l).

(** [sorted(l, key=key)] with [str] keys.  Python's sort is stable and
    compares keys with [<] only; on the total order of strings the result
    is therefore determined (see [sorted_unique] below), and stable
    insertion computes it. *)
Section Sorted.
Context {A : Type} (key : A → string).

Fixpoint insert_by (x : A) (l : list A) : list A :=
  match l with
  | [] => [x]
  | y :: l' =>
      if String.ltb (key y) (key x) then y :: insert_by x l'
      else x :: y :: l'
  end.

Definition sorted (l : list A) : list A := foldr insert_by [] l.
End Sorted.

End Py.
Import Py.

(** ** Data model *)

(** The tags of an element: [el.get("tags", {})]. *)
Abbreviation Tags := (gmap string string).

(** The [center] object Overpass attaches to a way or relation. *)
Record CenterObj : Type := {
  co_lat : option number;
  co_lon : option number;
}.

(** A raw element of the Overpass response, with the keys the program
    reads.  Every key may be missing; a key that is there has the type
    Overpass gives it: [type] a string, [id] an integer, [lat] and [lon]
    numbers, [center] an object with [lat] and [lon], [tags] an object of
    strings.  For every key but [tags] a JSON [null] reads like a missing
    key ([el.get] returns [None] for both); [el_tags] is [None] for a
    missing key only, the case [el.get("tags", {})] defaults. *)
Record Element : Type := {
  el_type : option string;
  el_id : option Z;
  el_lat : option number;
  el_lon : option number;
  el_center : option CenterObj;
  el_tags : option Tags;
}.

(** One entry of [results]; the fields are the keys of the dict literal
    ([id_] is the key ["id"]). *)
Record Result : Type := {
  id_ : string;
  name : string;
  address : option string;
  lat : option number;
  lon : option number;
  distance_km : option float;
  opening_hours : option string;
  phone : option string;
  website : option string;
  osm_url : string;
}.

(** ** [build_address] *)

Definition build_address (tags : Tags) : option string :=
  let parts : list string := [] in
  let num := tags !! "addr:housenumber" in
  let street := tags !! "addr:street" in
  let parts :=
    match truthy_str street with
    | Some street =>
        parts ++ [match truthy_str num with
                  | Some num => num +:+ " "
                  | None => EmptyString
                  end +:+ street]
    | None => parts
    end in
  let city := or_ (or_ (tags !! "addr:city") (tags !! "addr:town"))
                  (tags !! "addr:village") in
  let state := or_ (tags !! "addr:state") (tags !! "addr:province") in
  let postcode := tags !! "addr:postcode" in
  let locality := join ", " (omap truthy_str [city; state]) in
  let parts :=
    if String.eqb locality EmptyString then parts else parts ++ [locality] in
  let parts :=
    match truthy_str postcode with
    | Some postcode => parts ++ [postcode]
    | None => parts
    end in
  match parts with
  | [] => None
  | _ :: _ => Some (join ", " parts)
  end.

(** ** The body of the [for el in elements] loop

    [normalize el] is [None] when the loop takes [continue], and the dict
    appended to [results] otherwise.  On an [Element] every [.get] of the
    body finds an object to be called on, so the body cannot raise; the
    elements whose [tags] or [center] is a value of another type are those
    of [RawElement] below, with the body [normalize_raw]. *)

(** Lines 132-138: where [la] and [lo] come from. *)
Definition coordinates (el : Element) : option number * option number :=
  if decide (el_type el = Some "node") then (el_lat el, el_lon el)
  else
    let center_obj :=
      default {| co_lat := None; co_lon := None |} (el_center el) in
    (co_lat center_obj, co_lon center_obj).

Definition normalize (el : Element) : option Result :=
  let tags : Tags := default ∅ (el_tags el) in
  let name := default "Laundromat" (truthy_str (tags !! "name")) in
  let '(la, lo) := coordinates el in
  match la, lo with
  | Some _, Some _ =>
      let distance_km : option float := None in
      let addr := or_ (build_address tags) (tags !! "addr:full") in
      Some {|
        id_ := str_opt (el_type el) +:+ "/" +:+ str_opt_int (el_id el);
        name := name;
        address := addr;
        lat := la;
        lon := lo;
        distance_km := distance_km;
        opening_hours := tags !! "opening_hours";
        phone := or_ (tags !! "phone") (tags !! "contact:phone");
        website := or_ (tags !! "website") (tags !! "contact:website");
        osm_url := "https://www.openstreetmap.org/" +:+ str_opt (el_type el)
                   +:+ "/" +:+ str_opt_int (el_id el);
      |}
  | _, _ => None
  end.

(** ** Outbound HTTP

    The two upstream services are a fixture [Upstream]: what each answers to
    a request, [None] when [requests] raises instead (timeout, connection
    failure).  A computation threads the log of the requests sent so far and
    ends in a value or in a raised exception. *)

(** A response: [r.status_code] and [r.json()], the body parsed to the
    shape [A] the service documents. *)
Record Response (A : Type) : Type := {
  status_code : Z;
  json : A;
}.
Arguments status_code {A} r.
Arguments json {A} r.

Inductive request : Type :=
| GET (url : string) (params headers : list (string * string)) (timeout : Z)
| POST (url : string) (data : string) (headers : list (string * string))
       (timeout : Z).

Definition is_POST (rq : request) : bool :=
  match rq with POST _ _ _ _ => true | GET _ _ _ _ => false end.

(** One match of the geocoder's JSON array. *)
Record Place : Type := {
  place_lat : option string;
  place_lon : option string;
  place_display_name : option string;
}.

(** The JSON object of the spatial database: [data.get("elements", [])]. *)
Record Overpass : Type := {
  ov_elements : option (list Element);
}.

Record Upstream : Type := {
  geocoder : request → option (Response (list Place));
  spatial : request → option (Response Overpass);
}.

Definition IO (A : Type) : Type := list request → outcome A * list request.

Definition ret {A : Type} (a : A) : IO A := λ log, (Return a, log).

Definition raise {A : Type} (e : exn) : IO A := λ log, (Raise e, log).

Definition lift {A : Type} (o : outcome A) : IO A := λ log, (o, log).

Definition bind {A B : Type} (m : IO A) (k : A → IO B) : IO B :=
  λ log,
    match m log with
    | (Return a, log') => k a log'
    | (Raise e, log') => (Raise e, log')
    end.

#[global] Instance IO_ret : MRet IO := @ret.
#[global] Instance IO_bind : MBind IO := λ A B k m, bind m k.

(** The dict [geocode_location] returns. *)
Record Center : Type := {
  c_lat : float;
  c_lon : float;
  c_display_name : option string;
}.

Record SearchResponse : Type := {
  center : Center;
  count : Z;
  results : list Result;
}.

(** [str.strip()] on the ASCII whitespace characters (the query template
    begins and ends with ASCII). *)
Definition is_space (c : ascii) : bool :=
  let n := nat_of_ascii c in
  ((9 <=? n) && (n <=? 13) || (28 <=? n) && (n <=? 32))%nat.

Fixpoint lstrip (s : string) : string :=
  match s with
  | EmptyString => EmptyString
  | String c s' => if is_space c then lstrip s' else s
  end.

Fixpoint rstrip (s : string) : string :=
  match s with
  | EmptyString => EmptyString
  | String c s' =>
      match rstrip s' with
      | EmptyString => if is_space c then EmptyString else String c EmptyString
      | r => String c r
      end
  end.

Definition strip (s : string) : string := rstrip (lstrip s).

(** [rstrip] leaves [b'] of [b], and [b'] is not empty. *)
Definition rstrips_to (b b' : string) : Prop :=
  rstrip b = b' ∧ b' ≠ EmptyString.

(** The characters a Rocq string literal cannot hold. *)
Definition nl : string := String "010"%char EmptyString.
Definition dq : string := String "034"%char EmptyString.
Definition quoted (s : string) : string := dq +:+ s +:+ dq.

(** What the program takes from its environment: the client identifier
    [os.getenv("OSM_USER_AGENT", ...)] read once at import, the builtins
    [float(s)] on a [str] ([None] is [ValueError]) and [str(f)] on a
    [float], and the upstream fixture. *)
Class Runtime : Type := {
  OSM_USER_AGENT : string;
  float_of_str : string → option float;
  str_float : float → string;
  web : Upstream;
}.

Section Runtime.

Context {rt : Runtime}.

Definition requests_get (url : string) (params headers : list (string * string))
    (timeout : Z) : IO (Response (list Place)) :=
  λ log,
    let rq := GET url params headers timeout in
    (match geocoder web rq with
     | Some r => Return r
     | None => Raise RequestException
     end, log ++ [rq]).

Definition requests_post (url data : string)
    (headers : list (string * string)) (timeout : Z)
    : IO (Response Overpass) :=
  λ log,
    let rq := POST url data headers timeout in
    (match spatial web rq with
     | Some r => Return r
     | None => Raise RequestException
     end, log ++ [rq]).

(** [float(v)] for what [item.get(...)] returns. *)
Definition float_ (v : option string) : outcome float :=
  match v with
  | None => Raise TypeError
  | Some s =>
      match float_of_str s with
      | Some f => Return f
      | None => Raise ValueError
      end
  end.

(** *** [geocode_location] *)

(** The one request [geocode_location] sends. *)
Definition geocode_request (query : string) : request :=
  GET "https://nominatim.openstreetmap.org/search"
      [("q", query); ("format", "json"); ("limit", "1")]
      [("User-Agent", OSM_USER_AGENT)] 15.

Definition geocode_location (query : string) : IO (option Center) :=
  let url := "https://nominatim.openstreetmap.org/search" in
  let params := [("q", query); ("format", "json"); ("limit", "1")] in
  let headers := [("User-Agent", OSM_USER_AGENT)] in
  r ← requests_get url params headers 15;
  if negb (status_code r =? 200) then ret None
  else
    let data := json r in
    match data with
    | [] => ret None
    | item :: _ =>
        la ← lift (float_ (place_lat item));
        lo ← lift (float_ (place_lon item));
        ret (Some {| c_lat := la; c_lon := lo;
                     c_display_name := place_display_name item |})
    end.

(** *** [search_laundromats] *)

(** The f-string of lines 107-118. *)
Definition query_template (radius_m : Z) (lat lon : float)
    (max_results : Z) : string :=
  let around :=
    "](around:" +:+ str_int radius_m +:+ "," +:+ str_float lat +:+ ","
    +:+ str_float lon +:+ ");" in
  nl +:+
  "    [out:json][timeout:25];" +:+ nl +:+
  "    (" +:+ nl +:+
  "      node[" +:+ quoted "shop" +:+ "=" +:+ quoted "laundry" +:+ around +:+ nl +:+
  "      way[" +:+ quoted "shop" +:+ "=" +:+ quoted "laundry" +:+ around +:+ nl +:+
  "      node[" +:+ quoted "amenity" +:+ "=" +:+ quoted "laundry" +:+ around +:+ nl +:+
  "      way[" +:+ quoted "amenity" +:+ "=" +:+ quoted "laundry" +:+ around +:+ nl +:+
  "      node[" +:+ quoted "amenity" +:+ "=" +:+ quoted "laundrette" +:+ around +:+ nl +:+
  "      way[" +:+ quoted "amenity" +:+ "=" +:+ quoted "laundrette" +:+ around +:+ nl +:+
  "    );" +:+ nl +:+
  "    out center tags qt " +:+ str_int max_results +:+ ";" +:+ nl +:+
  "    ".

(** The one request [search_laundromats] sends to the spatial database. *)
Definition spatial_request (center : Center) (radius_m max_results : Z)
    : request :=
  POST "https://overpass-api.de/api/interpreter"
       (strip (query_template radius_m (c_lat center) (c_lon center)
                 max_results))
       [("User-Agent", OSM_USER_AGENT); ("Content-Type", "text/plain")] 45.

(** The key of the final sort: [x["name"] or "zzzz"]. *)
Definition sort_key (x : Result) : string :=
  if String.eqb (name x) EmptyString then "zzzz" else name x.

(** The [for el in elements] loop: [results.append] or [continue]. *)
Definition collect (elements : list Element) : list Result :=
  fold_left
    (λ results el,
       match normalize el with
       | Some d => results ++ [d]
       | None => results
       end)
    elements [].

Definition search_laundromats (query : string) (radius_km : float)
    (max_results : Z) : IO SearchResponse :=
  center ← geocode_location query;
  match center with
  | None =>
      raise (HTTPException 404 "Location not found. Try a different search.")
  | Some center =>
      let lat := c_lat center in
      let lon := c_lon center in
      radius_m ← lift (int_of_float (radius_km * 1000)%float);
      let overpass_url := "https://overpass-api.de/api/interpreter" in
      let headers := [("User-Agent", OSM_USER_AGENT);
                      ("Content-Type", "text/plain")] in
      r ← requests_post overpass_url
             (strip (query_template radius_m lat lon max_results))
             headers 45;
      if negb (status_code r =? 200) then
        raise (HTTPException 502
                 "Upstream map service error. Please try again later.")
      else
        let data := json r in
        let elements := default [] (ov_elements data) in
        let results := collect elements in
        let results := slice_to max_results (sorted sort_key results) in
        ret {| center := center; count := len results; results := results |}
  end.

(** The bounds declared with [Query(ge=..., le=...)]. *)
Definition valid_args (radius_km : float) (max_results : Z) : bool :=
  (0.5 <=? radius_km)%float && (radius_km <=? 50)%float
  && (1 <=? max_results) && (max_results <=? 100).

(** The handler of [GET /api/search] as FastAPI calls it: the declared
    bounds are checked before the function is called.  The computation ends
    where the function returns its dict; what FastAPI does with the dict
    afterwards (the rendering to JSON, which refuses a float that is not
    finite) is not part of it. *)
Definition api_search (query : string) (radius_km : float)
    (max_results : Z) : IO SearchResponse :=
  if valid_args radius_km max_results
  then search_laundromats query radius_km max_results
  else raise RequestValidationError.

End Runtime.

(** What [search_laundromats] returns for the reply of the spatial
    database: lines 124-166. *)
Definition response_of (c : Center) (max_results : Z)
    (rsp : Response Overpass) : SearchResponse :=
  let results :=
    slice_to max_results
      (sorted sort_key (collect (default [] (ov_elements (json rsp))))) in
  {| center := c; count := len results; results := results |}.

(** ** The specification's side

    Definitions that follow the words of the specification; the theorems
    below compare them with the program. *)

Module Spec.

(** A tag is present when it has a non-empty value. *)
Definition present (tags : Tags) (k : string) : option string :=
  match tags !! k with
  | Some EmptyString => None
  | v => v
  end.

(** The first present tag among [ks]. *)
Fixpoint first_present (tags : Tags) (ks : list string) : option string :=
  match ks with
  | [] => None
  | k :: ks' =>
      match present tags k with
      | Some v => Some v
      | None => first_present tags ks'
      end
  end.

Definition name_of (tags : Tags) : string :=
  default "Laundromat" (present tags "name").

(** Housenumber, a space and the street, when the street is present. *)
Definition street_line (tags : Tags) : option string :=
  match present tags "addr:street" with
  | Some street =>
      Some match present tags "addr:housenumber" with
           | Some num => num +:+ " " +:+ street
           | None => street
           end
  | None => None
  end.

(** City (else town, else village) and state (else province). *)
Definition locality_line (tags : Tags) : option string :=
  let city := first_present tags ["addr:city"; "addr:town"; "addr:village"] in
  let state := first_present tags ["addr:state"; "addr:province"] in
  match city, state with
  | Some c, Some s => Some (c +:+ ", " +:+ s)
  | Some c, None => Some c
  | None, Some s => Some s
  | None, None => None
  end.

Definition segments (tags : Tags) : list string :=
  omap id [street_line tags; locality_line tags; present tags "addr:postcode"].

(** The segments joined by ", "; null when there is none. *)
Definition structured_address (tags : Tags) : option string :=
  match segments tags with
  | [] => None
  | segs => Some (join ", " segs)
  end.

(** The structured address, else the [addr:full] tag. *)
Definition address_of (tags : Tags) : option string :=
  match structured_address tags with
  | Some a => Some a
  | None => tags !! "addr:full"
  end.

(** [z] is the float [f] truncated toward zero: the truncating quotient
    of its exact value [±m·2^e]. *)
Definition truncation (f : float) (z : Z) : Prop :=
  match Prim2SF f with
  | S754_zero _ => z = 0
  | S754_finite s m e =>
      z = ((if s then - Z.pos m else Z.pos m) * 2 ^ Z.max e 0)
            ÷ 2 ^ Z.max (- e) 0
  | _ => False
  end.

(** The spatial query: a radius around a center, a list of tag and
    geometry selectors, and a cap on the records returned. *)
Inductive geometry : Type := Point | Area.

Record Selector : Type := {
  sel_geometry : geometry;
  sel_key : string;
  sel_value : string;
}.

Record QuerySpec : Type := {
  q_radius_m : Z;
  q_lat : float;
  q_lon : float;
  q_selectors : list Selector;
  q_cap : Z;
}.

(** [shop=laundry], [amenity=laundry] and [amenity=laundrette], each for
    points and for areas. *)
Definition categories : list (string * string) :=
  [("shop", "laundry"); ("amenity", "laundry"); ("amenity", "laundrette")].

Definition six_combinations : list Selector :=
  kv ← categories;
  [ {| sel_geometry := Point; sel_key := kv.1; sel_value := kv.2 |};
    {| sel_geometry := Area; sel_key := kv.1; sel_value := kv.2 |} ].

Definition build (lat lon : float) (radius_m max_results : Z) : QuerySpec :=
  {| q_radius_m := radius_m; q_lat := lat; q_lon := lon;
     q_selectors := six_combinations; q_cap := max_results |}.

(** The query language of the spatial database. *)
Section Render.
(** How a [float] is printed. *)
Variable show : float → string.

Definition keyword (g : geometry) : string :=
  match g with Point => "node" | Area => "way" end.

Definition render_selector (q : QuerySpec) (s : Selector) : string :=
  keyword (sel_geometry s) +:+ "[" +:+ quoted (sel_key s) +:+ "="
  +:+ quoted (sel_value s) +:+ "](around:" +:+ str_int (q_radius_m q)
  +:+ "," +:+ show (q_lat q) +:+ "," +:+ show (q_lon q)
  +:+ ");".

Definition render (q : QuerySpec) : string :=
  "[out:json][timeout:25];" +:+ nl +:+
  "    (" +:+ nl +:+
  foldr (λ s rest, "      " +:+ render_selector q s +:+ nl +:+ rest)
        ("    );" +:+ nl +:+
         "    out center tags qt " +:+ str_int (q_cap q) +:+ ";")
        (q_selectors q).
End Render.

End Spec.

(** The order of two entries under a sort key: [key a <= key b] on [str]. *)
Definition key_le {A : Type} (key : A → string) (a b : A) : Prop :=
  (key a ≤ key b)%string.

(** ** Fixtures

    A small upstream used to run the program on concrete inputs. *)

Module Fixture.

Definition user_agent : string := "LaundromatFinder/1.0 (+https://example.com)".

(** [float(s)] and [str(f)] on the strings and coordinates the fixtures
    use: "39.75" and "-89.5" are read as numbers, and [float] raises
    [ValueError] on "not-a-number". *)
Definition parse (s : string) : option float :=
  if String.eqb s "39.75" then Some 39.75%float
  else if String.eqb s "-89.5" then Some (-89.5)%float
  else None.

Definition show (f : float) : string :=
  if (f =? 39.75)%float then "39.75"
  else if (f =? -89.5)%float then "-89.5"
  else "nan".

Definition springfield : Place :=
  {| place_lat := Some "39.75"; place_lon := Some "-89.5";
     place_display_name := Some "Springfield, Illinois" |}.

Definition clean_co_tags : Tags :=
  list_to_map [("shop", "laundry"); ("name", "Clean Co");
               ("addr:housenumber", "12"); ("addr:street", "Main St");
               ("addr:city", "Springfield")].

Definition clean_co (i : Z) : Element :=
  {| el_type := Some "node"; el_id := Some i;
     el_lat := Some (Float 1); el_lon := Some (Float 2);
     el_center := None; el_tags := Some clean_co_tags |}.

Definition unnamed_way : Element :=
  {| el_type := Some "way"; el_id := Some 8;
     el_lat := None; el_lon := None;
     el_center := Some {| co_lat := Some (Float 5); co_lon := Some (Float 6) |};
     el_tags := Some (list_to_map [("amenity", "laundrette")]) |}.

Definition bare_relation : Element :=
  {| el_type := Some "relation"; el_id := Some 9;
     el_lat := None; el_lon := None;
     el_center := Some {| co_lat := Some (Int 3); co_lon := Some (Int 4) |};
     el_tags := None |}.

Definition no_coordinates : Element :=
  {| el_type := Some "way"; el_id := Some 10;
     el_lat := Some (Float 1); el_lon := Some (Float 2);
     el_center := None;
     el_tags := Some (list_to_map [("name", "Aqua Wash")]) |}.

Definition elements : list Element :=
  [unnamed_way; clean_co 7; no_coordinates; bare_relation; clean_co 11].

Definition reply {A : Type} (status : Z) (body : A) : option (Response A) :=
  Some {| status_code := status; json := body |}.

(** One match, five elements. *)
Definition found : Upstream :=
  {| geocoder := λ _, reply 200 [springfield];
     spatial := λ _, reply 200 {| ov_elements := Some elements |} |}.

(** The geocoder finds nothing; the spatial database would answer. *)
Definition no_match : Upstream :=
  {| geocoder := λ _, reply 200 [];
     spatial := λ _, reply 200 {| ov_elements := Some elements |} |}.

(** The first match carries a latitude that is no number. *)
Definition malformed : Place :=
  {| place_lat := Some "not-a-number"; place_lon := Some "-89.5";
     place_display_name := Some "Springfield, Illinois" |}.

Definition malformed_match : Upstream :=
  {| geocoder := λ _, reply 200 [malformed];
     spatial := λ _, reply 200 {| ov_elements := Some elements |} |}.

Definition runtime (upstream : Upstream) : Runtime :=
  {| OSM_USER_AGENT := user_agent; float_of_str := parse;
     str_float := show; web := upstream |}.

(** The search for "Springfield" within 1.234375 km, three results at
    most, and what it returns. *)
Definition run : outcome SearchResponse * list request :=
  api_search (rt := runtime found) "Springfield" 1.234375 3 [].

Definition center : Center :=
  {| c_lat := 39.75; c_lon := -89.5;
     c_display_name := Some "Springfield, Illinois" |}.

Definition response : SearchResponse :=
  response_of center 3
    {| status_code := 200; json := {| ov_elements := Some elements |} |}.

Definition sent : list request :=
  [geocode_request (rt := runtime found) "Springfield";
   spatial_request (rt := runtime found) center 1234 3].

End Fixture.

(** ** The healthcheck route [test_database]

    The process environment is a map from variable names to values;
    [os.getenv(k)] is the lookup. *)

Abbreviation Env := (gmap string string).

Definition getenv (env : Env) (k : string) : option string := env !! k.

(** The dict [test_database] returns. *)
Record Health : Type := {
  backend : string;
  database : string;
  database_url : option string;
  database_name : option string;
  connection_status : string;
  collections : list string;
}.

Definition test_database (env : Env) : Health :=
  let response :=
    {| backend := "✅ Running";
       database := "ℹ️ Not required for search";
       database_url := None;
       database_name := None;
       connection_status := "N/A";
       collections := [] |} in
  let response :=
    {| backend := backend response;
       database := database response;
       database_url :=
         Some (if truthy (getenv env "DATABASE_URL") then "✅ Set"
               else "❌ Not Set");
       database_name := database_name response;
       connection_status := connection_status response;
       collections := collections response |} in
  let response :=
    {| backend := backend response;
       database := database response;
       database_url := database_url response;
       database_name :=
         Some (if truthy (getenv env "DATABASE_NAME") then "✅ Set"
               else "❌ Not Set");
       connection_status := connection_status response;
       collections := collections response |} in
  response.

(** ** Auxiliary notions for the further properties *)

(** The tags [build_address] reads. *)
Definition address_keys : list string :=
  ["addr:housenumber"; "addr:street"; "addr:city"; "addr:town";
   "addr:village"; "addr:state"; "addr:province"; "addr:postcode"].

(** An element whose coordinates both resolve. *)
Definition locatable (el : Element) : Prop :=
  is_Some (coordinates el).1 ∧ is_Some (coordinates el).2.

#[global] Instance locatable_dec (el : Element) : Decision (locatable el).
Proof. unfold locatable. apply _. Defined.

(** After [k] right shifts of [M] in the rounding of a float: the mantissa
    is the quotient, and the round and sticky bits are clear when nothing
    was shifted out. *)
Definition shifted (M k : Z) (mrs : shr_record) : Prop :=
  shr_m mrs = M / 2 ^ k ∧
  (M mod 2 ^ k = 0 → shr_r mrs = false ∧ shr_s mrs = false).

(** ** The loop body on elements as [r.json()] can deliver them

    [Element] types every key as Overpass documents it.  The two keys on
    whose value the loop body calls [.get], ["tags"] and ["center"], can
    hold any JSON value in a reply; only an object (a Python [dict]) has
    the method.  A [RawElement] keeps the scalar keys typed and lets these
    two be missing, an object, or a value that is no object. *)

(** A JSON value that is not an object, as [json.loads] delivers it; of an
    array only the length matters here. *)
Inductive non_object : Type :=
| JNull
| JBool (b : bool)
| JNumber (n : number)
| JString (s : string)
| JArray (length : nat).

(** [bool(v)]: [None], [False], zero, the empty string and the empty list
    are falsy. *)
Definition truthy_value (v : non_object) : bool :=
  match v with
  | JNull => false
  | JBool b => b
  | JNumber (Int z) => negb (z =? 0)
  | JNumber (Float f) => negb (f =? 0)%float
  | JString s => negb (String.eqb s EmptyString)
  | JArray n => negb (n =? 0)%nat
  end.

(** What a key of the element holds. *)
Inductive slot (A : Type) : Type :=
| Missing
| Object (a : A)
| Other (v : non_object).
Arguments Missing {A}.
Arguments Object {A} a.
Arguments Other {A} v.

Record RawElement : Type := {
  raw_type : option string;
  raw_id : option Z;
  raw_lat : option number;
  raw_lon : option number;
  raw_center : slot CenterObj;
  raw_tags : slot Tags;
}.

(** Lines 129-130: [tags = el.get("tags", {})], on which [tags.get("name")]
    is called next. *)
Definition tags_of (el : RawElement) : outcome Tags :=
  match raw_tags el with
  | Missing => Return ∅
  | Object tags => Return tags
  | Other _ => Raise AttributeError
  end.

(** Lines 132-138: [center_obj = el.get("center") or {}], on which
    [center_obj.get("lat")] is called next. *)
Definition coordinates_raw (el : RawElement)
    : outcome (option number * option number) :=
  if decide (raw_type el = Some "node") then Return (raw_lat el, raw_lon el)
  else
    match raw_center el with
    | Missing => Return (None, None)
    | Object center_obj => Return (co_lat center_obj, co_lon center_obj)
    | Other v =>
        if truthy_value v then Raise AttributeError else Return (None, None)
    end.

(** Lines 129-157: [Return None] is [continue], [Return (Some d)] the
    dict appended to [results]. *)
Definition normalize_raw (el : RawElement) : outcome (option Result) :=
  match tags_of el with
  | Raise e => Raise e
  | Return tags =>
      let name := default "Laundromat" (truthy_str (tags !! "name")) in
      match coordinates_raw el with
      | Raise e => Raise e
      | Return (Some la, Some lo) =>
          let distance_km : option float := None in
          let addr := or_ (build_address tags) (tags !! "addr:full") in
          Return (Some {|
            id_ := str_opt (raw_type el) +:+ "/" +:+ str_opt_int (raw_id el);
            name := name;
            address := addr;
            lat := Some la;
            lon := Some lo;
            distance_km := distance_km;
            opening_hours := tags !! "opening_hours";
            phone := or_ (tags !! "phone") (tags !! "contact:phone");
            website := or_ (tags !! "website") (tags !! "contact:website");
            osm_url := "https://www.openstreetmap.org/"
                       +:+ str_opt (raw_type el)
                       +:+ "/" +:+ str_opt_int (raw_id el);
          |})
      | Return _ => Return None
      end
  end.

(** The [for el in elements] loop: an exception of the body ends it. *)
Fixpoint collect_raw (elements : list RawElement) (results : list Result)
    : outcome (list Result) :=
  match elements with
  | [] => Return results
  | el :: elements =>
      match normalize_raw el with
      | Raise e => Raise e
      | Return (Some d) => collect_raw elements (results ++ [d])
      | Return None => collect_raw elements results
      end
  end.

(** An [Element] as a [RawElement]. *)
Definition raw_of (el : Element) : RawElement :=
  {| raw_type := el_type el;
     raw_id := el_id el;
     raw_lat := el_lat el;
     raw_lon := el_lon el;
     raw_center := from_option Object Missing (el_center el);
     raw_tags := from_option Object Missing (el_tags el) |}.

(** The shapes on which every [.get] of the body has an object to be
    called on: [tags] is missing or an object, and [center], which only an
    element of another type than "node" reads, is missing, an object or
    falsy. *)
Definition well_shaped (el : RawElement) : bool :=
  match raw_tags el with
  | Other _ => false
  | Missing | Object _ => true
  end
  && (bool_decide (raw_type el = Some "node")
      || match raw_center el with
         | Other v => negb (truthy_value v)
         | Missing | Object _ => true
         end).

(** Further upstream fixtures. *)
Module Cases.

(** The geocoder finds Springfield; the spatial database answers 504. *)
Definition overloaded : Upstream :=
  {| geocoder := λ _, Fixture.reply 200 [Fixture.springfield];
     spatial := λ _, Fixture.reply 504 {| ov_elements := None |} |}.

(** The geocoder finds Springfield; the spatial database is unreachable. *)
Definition unreachable : Upstream :=
  {| geocoder := λ _, Fixture.reply 200 [Fixture.springfield];
     spatial := λ _, None |}.

(** Two matches, the second one malformed. *)
Definition two_matches : Upstream :=
  {| geocoder := λ _, Fixture.reply 200 [Fixture.springfield; Fixture.malformed];
     spatial := λ _, Fixture.reply 200 {| ov_elements := Some Fixture.elements |} |}.

(** A node that carries a center but no coordinates of its own. *)
Definition node_with_center : Element :=
  {| el_type := Some "node"; el_id := Some 12;
     el_lat := None; el_lon := None;
     el_center := Some {| co_lat := Some (Float 5); co_lon := Some (Float 6) |};
     el_tags := None |}.

(** Contact tags with an empty fallback. *)
Definition empty_contact : Element :=
  {| el_type := Some "node"; el_id := Some 13;
     el_lat := Some (Float 1); el_lon := Some (Float 2);
     el_center := None;
     el_tags := Some (list_to_map [("contact:phone", EmptyString);
                                   ("website", "https://wash.example")]) |}.

(** A node with ["tags": null]. *)
Definition null_tags : RawElement :=
  {| raw_type := Some "node"; raw_id := Some 21;
     raw_lat := Some (Float 1); raw_lon := Some (Float 2);
     raw_center := Missing;
     raw_tags := Other JNull |}.

(** A way with ["center": 5]. *)
Definition numeric_center : RawElement :=
  {| raw_type := Some "way"; raw_id := Some 22;
     raw_lat := None; raw_lon := None;
     raw_center := Other (JNumber (Int 5));
     raw_tags := Object (list_to_map [("name", "Suds")]) |}.

(** A way with ["center": null] and no tags. *)
Definition null_center : RawElement :=
  {| raw_type := Some "way"; raw_id := Some 23;
     raw_lat := Some (Float 1); raw_lon := Some (Float 2);
     raw_center := Other JNull;
     raw_tags := Missing |}.

(** An element without a type, with a center and no tags. *)
Definition untyped_with_center : RawElement :=
  {| raw_type := None; raw_id := Some 24;
     raw_lat := None; raw_lon := None;
     raw_center :=
       Object {| co_lat := Some (Float 3); co_lon := Some (Float 4) |};
     raw_tags := Missing |}.

End Cases.

(** * Properties *)

(** Take apart the existentials, conjunctions and disjunctions among the
    hypotheses. *)
Ltac break_hyps :=
  repeat match goal with
         | H : ∃ _, _ |- _ => destruct H
         | H : _ ∧ _ |- _ => destruct H
         | H : _ ∨ _ |- _ => destruct H
         end.

(** Both sides of an equivalence are absurd, or follow at once. *)
Ltac trivial_iff :=
  split; intros ?; break_hyps; simplify_eq/=; try done; try congruence;
  eauto 12.

(** ** The order of strings

    [String.le] is the order of [<=] on [str]; the sort compares with [<]. *)

Module StrOrder.

Lemma ltb_false_le (a b : string) :
  String.ltb b a = false ↔ (a ≤ b)%string.
Proof.
  unfold String.le, String.ltb, String.leb.
  rewrite (String.compare_antisym a b).
  destruct (String.compare b a); simpl; intuition congruence.
Qed.

Lemma ltb_true_le (a b : string) : String.ltb a b = true → (a ≤ b)%string.
Proof.
  unfold String.le, String.ltb, String.leb.
  by destruct (String.compare a b).
Qed.

Lemma ltb_true_ne (a b : string) : String.ltb a b = true → a ≠ b.
Proof.
  unfold String.ltb. intros H ->.
  pose proof (String.compare_antisym b b) as Hc.
  by destruct (String.compare b b).
Qed.

End StrOrder.

(** ** [sorted]: ordered, a permutation, stable, and unique as such *)

Section SortedFacts.
Context {A : Type} (key : A → string).

#[local] Instance key_le_trans : Transitive (key_le key).
Proof. intros a b c. unfold key_le. apply transitivity. Qed.

Lemma insert_by_perm (x : A) (l : list A) : insert_by key x l ≡ₚ x :: l.
Proof.
  induction l as [|y l IH]; simpl; [done|].
  destruct (String.ltb (key y) (key x)); [|done].
  rewrite IH. apply Permutation_swap.
Qed.

Lemma sorted_perm (l : list A) : sorted key l ≡ₚ l.
Proof.
  induction l as [|x l IH]; simpl; [done|].
  fold (sorted key l). by rewrite insert_by_perm, IH.
Qed.

Lemma insert_by_sorted (x : A) (l : list A) :
  StronglySorted (key_le key) l → StronglySorted (key_le key) (insert_by key x l).
Proof.
  induction 1 as [|y l Hl IH Hy]; simpl.
  - repeat constructor.
  - destruct (String.ltb (key y) (key x)) eqn:Hlt.
    + constructor; [done|].
      rewrite insert_by_perm. constructor; [|done].
      by apply StrOrder.ltb_true_le.
    + apply StrOrder.ltb_false_le in Hlt.
      constructor; [by constructor|].
      constructor; [done|].
      eapply Forall_impl; [exact Hy|].
      intros z Hz. by trans y.
Qed.

Lemma sorted_sorted (l : list A) : StronglySorted (key_le key) (sorted key l).
Proof.
  induction l as [|x l IH]; simpl; [constructor|].
  by apply insert_by_sorted.
Qed.

Lemma filter_insert_by (k : string) (x : A) (l : list A) :
  filter (λ a, key a = k) (insert_by key x l)
  = filter (λ a, key a = k) (x :: l).
Proof.
  induction l as [|y l IH]; simpl; [done|].
  destruct (String.ltb (key y) (key x)) eqn:Hlt; [|done].
  apply StrOrder.ltb_true_ne in Hlt.
  rewrite !filter_cons in *.
  repeat case_decide; simplify_eq; try done; by rewrite IH.
Qed.

(** Stability: entries with the same key keep their relative order. *)
Lemma sorted_stable (k : string) (l : list A) :
  filter (λ a, key a = k) (sorted key l) = filter (λ a, key a = k) l.
Proof.
  induction l as [|x l IH]; simpl; [done|].
  fold (sorted key l). rewrite filter_insert_by, !filter_cons, IH. done.
Qed.

Lemma stable_sorted_eq (l1 l2 : list A) :
  StronglySorted (key_le key) l1 → StronglySorted (key_le key) l2 →
  (∀ k, filter (λ a, key a = k) l1 = filter (λ a, key a = k) l2) →
  l1 = l2.
Proof.
  intros H1. revert l2.
  induction H1 as [|a t1 Ht1 IH Ha]; intros l2 H2 Hf.
  - destruct l2 as [|b t2]; [done|].
    specialize (Hf (key b)). rewrite filter_cons in Hf.
    by case_decide.
  - destruct H2 as [|b t2 Ht2 Hb].
    { specialize (Hf (key a)). rewrite filter_cons in Hf. by case_decide. }
    assert (key a = key b) as Hk.
    { apply (anti_symm String.le).
      - assert (b ∈ a :: t1) as Hin.
        { eapply (list_elem_of_filter (λ x, key x = key b)).
          rewrite Hf, filter_cons. case_decide; [left|done]. }
        apply elem_of_cons in Hin as [->|Hin]; [reflexivity|].
        by eapply Forall_forall in Ha.
      - assert (a ∈ b :: t2) as Hin.
        { eapply (list_elem_of_filter (λ x, key x = key a)).
          rewrite <-Hf, filter_cons. case_decide; [left|done]. }
        apply elem_of_cons in Hin as [->|Hin]; [reflexivity|].
        by eapply Forall_forall in Hb. }
    assert (a = b) as ->.
    { specialize (Hf (key a)). rewrite !filter_cons in Hf.
      repeat case_decide; congruence. }
    f_equal. apply IH; [done|].
    intros k. specialize (Hf k). rewrite !filter_cons in Hf.
    case_decide; congruence.
Qed.

(** What [sorted] computes is what any stable sort returns. *)
Lemma sorted_unique (l l' : list A) :
  StronglySorted (key_le key) l' →
  (∀ k, filter (λ a, key a = k) l' = filter (λ a, key a = k) l) →
  l' = sorted key l.
Proof.
  intros Hs Hf. apply stable_sorted_eq; [done|apply sorted_sorted|].
  intros k. by rewrite sorted_stable.
Qed.

Lemma sorted_adjacent (l : list A) (i : nat) (a b : A) :
  StronglySorted (key_le key) l →
  l !! i = Some a → l !! S i = Some b → key_le key a b.
Proof.
  intros Hl. revert i.
  induction Hl as [|x l Hl IH Hx]; intros i Ha Hb; [done|].
  destruct i as [|i]; simpl in *.
  - simplify_eq. eapply Forall_forall in Hx; [done|].
    by eapply list_elem_of_lookup_2.
  - by eapply IH.
Qed.

End SortedFacts.

Lemma slice_to_prefix {A : Type} (n : Z) (l : list A) :
  slice_to n l `prefix_of` l.
Proof. unfold slice_to. destruct (0 <=? n); apply prefix_take. Qed.

Lemma slice_to_len {A : Type} (n : Z) (l : list A) :
  0 ≤ n → len (slice_to n l) ≤ n.
Proof.
  intros Hn. unfold slice_to, len.
  destruct (Z.leb_spec 0 n); [|lia].
  rewrite length_take. lia.
Qed.

Lemma prefix_sorted {A : Type} (R : relation A) (l1 l2 : list A) :
  l1 `prefix_of` l2 → StronglySorted R l2 → StronglySorted R l1.
Proof. intros [k ->]. apply StronglySorted_app_1_l. Qed.

Lemma prefix_filter {A : Type} (P : A → Prop) `{!∀ x, Decision (P x)}
    (l1 l2 : list A) :
  l1 `prefix_of` l2 → filter P l1 `prefix_of` filter P l2.
Proof. intros [k ->]. rewrite filter_app. by eexists. Qed.

(** ** Truthiness and presence *)

Lemma append_assoc (a b c : string) : (a +:+ b) +:+ c = a +:+ (b +:+ c).
Proof.
  induction a as [|x a IH]; [done|].
  change (String x ((a +:+ b) +:+ c) = String x (a +:+ b +:+ c)).
  by f_equal.
Qed.

Lemma eqb_app_nonempty (x : ascii) (a b : string) :
  String.eqb (String x a +:+ b) EmptyString = false.
Proof. done. Qed.

Lemma truthy_str_present (tags : Tags) (k : string) :
  truthy_str (tags !! k) = Spec.present tags k.
Proof. unfold Spec.present. by destruct (tags !! k) as [[|c s]|]. Qed.

Lemma truthy_str_Some (v : option string) (s : string) :
  truthy_str v = Some s ↔ v = Some s ∧ s ≠ EmptyString.
Proof.
  destruct v as [[|c t]|]; simpl; split; try done.
  - by intros [[= <-] ?].
  - by intros [= <-].
  - by intros [[= <-] ?].
  - by intros [? ?].
Qed.

Lemma truthy_str_or (a b : option string) :
  truthy_str (or_ a b)
  = match truthy_str a with Some s => Some s | None => truthy_str b end.
Proof. unfold or_, truthy. by destruct a as [[|c t]|]. Qed.

(** [a or b] is [a] when [a] is truthy and [b], whatever it is, otherwise. *)
Lemma or_truthy (a b : option string) (s : string) :
  truthy_str a = Some s → or_ a b = Some s.
Proof.
  intros H. apply truthy_str_Some in H as [-> Hs].
  unfold or_, truthy. simpl. by destruct s.
Qed.

Lemma or_falsy (a b : option string) : truthy_str a = None → or_ a b = b.
Proof. intros H. unfold or_, truthy. by rewrite H. Qed.

Lemma present_nonempty (tags : Tags) (k : string) :
  Spec.present tags k ≠ Some EmptyString.
Proof. unfold Spec.present. by destruct (tags !! k) as [[|c s]|]. Qed.

Lemma first_present_nonempty (tags : Tags) (ks : list string) :
  Spec.first_present tags ks ≠ Some EmptyString.
Proof.
  induction ks as [|k ks IH]; simpl; [done|].
  pose proof (present_nonempty tags k).
  by destruct (Spec.present tags k).
Qed.

(** ** [build_address] against the specification's address *)

Lemma city_first_present (tags : Tags) :
  truthy_str (or_ (or_ (tags !! "addr:city") (tags !! "addr:town"))
                  (tags !! "addr:village"))
  = Spec.first_present tags ["addr:city"; "addr:town"; "addr:village"].
Proof.
  rewrite !truthy_str_or, !truthy_str_present. simpl.
  by repeat destruct (Spec.present _ _).
Qed.

Lemma state_first_present (tags : Tags) :
  truthy_str (or_ (tags !! "addr:state") (tags !! "addr:province"))
  = Spec.first_present tags ["addr:state"; "addr:province"].
Proof.
  rewrite !truthy_str_or, !truthy_str_present. simpl.
  by repeat destruct (Spec.present _ _).
Qed.

Lemma build_address_structured (tags : Tags) :
  build_address tags = Spec.structured_address tags.
Proof.
  unfold build_address, Spec.structured_address, Spec.segments,
    Spec.street_line, Spec.locality_line.
  cbn [omap list_omap].
  rewrite city_first_present, state_first_present, !truthy_str_present.
  pose proof (first_present_nonempty tags
                ["addr:city"; "addr:town"; "addr:village"]) as Hc.
  pose proof (first_present_nonempty tags
                ["addr:state"; "addr:province"]) as Hs.
  destruct (Spec.first_present tags [_; _; _]) as [[|c1 c]|];
    destruct (Spec.first_present tags [_; _]) as [[|s1 s]|];
    try done;
    destruct (Spec.present tags "addr:street") as [street|];
    destruct (Spec.present tags "addr:housenumber") as [num|];
    destruct (Spec.present tags "addr:postcode") as [postcode|];
    cbn; rewrite ?eqb_app_nonempty; cbn; rewrite ?append_assoc; done.
Qed.

Lemma structured_address_nonempty (tags : Tags) :
  Spec.structured_address tags ≠ Some EmptyString.
Proof.
  unfold Spec.structured_address, Spec.segments, Spec.street_line,
    Spec.locality_line.
  pose proof (first_present_nonempty tags
                ["addr:city"; "addr:town"; "addr:village"]) as Hc.
  pose proof (first_present_nonempty tags
                ["addr:state"; "addr:province"]) as Hs.
  pose proof (present_nonempty tags "addr:street") as Hst.
  pose proof (present_nonempty tags "addr:housenumber") as Hn.
  pose proof (present_nonempty tags "addr:postcode") as Hp.
  destruct (Spec.first_present tags [_; _; _]) as [[|c1 c]|];
    destruct (Spec.first_present tags [_; _]) as [[|s1 s]|];
    try done;
    destruct (Spec.present tags "addr:street") as [[|st1 street]|];
    try done;
    destruct (Spec.present tags "addr:housenumber") as [[|n1 num]|];
    try done;
    destruct (Spec.present tags "addr:postcode") as [[|p1 postcode]|];
    try done.
Qed.

Lemma address_fallback (tags : Tags) :
  or_ (build_address tags) (tags !! "addr:full") = Spec.address_of tags.
Proof.
  unfold Spec.address_of. rewrite build_address_structured.
  pose proof (structured_address_nonempty tags) as Hne.
  destruct (Spec.structured_address tags) as [a|]; [|done].
  apply or_truthy, truthy_str_Some. split; [done|]. congruence.
Qed.

(** ** The loop body *)

Lemma normalize_Some (el : Element) (r : Result) :
  normalize el = Some r ↔
  ∃ la lo,
    coordinates el = (Some la, Some lo) ∧
    r = let tags := default ∅ (el_tags el) in
        {| id_ := str_opt (el_type el) +:+ "/" +:+ str_opt_int (el_id el);
           name := default "Laundromat" (truthy_str (tags !! "name"));
           address := or_ (build_address tags) (tags !! "addr:full");
           lat := Some la;
           lon := Some lo;
           distance_km := None;
           opening_hours := tags !! "opening_hours";
           phone := or_ (tags !! "phone") (tags !! "contact:phone");
           website := or_ (tags !! "website") (tags !! "contact:website");
           osm_url := "https://www.openstreetmap.org/"
                      +:+ str_opt (el_type el) +:+ "/"
                      +:+ str_opt_int (el_id el) |}.
Proof.
  unfold normalize.
  destruct (coordinates el) as [[la|] [lo|]]; split;
    try done; try (by intros (? & ? & ? & ?)).
  - intros [= <-]. by exists la, lo.
  - intros (la' & lo' & [= <- <-] & ->). done.
Qed.

Lemma normalize_None (el : Element) :
  normalize el = None ↔
  (coordinates el).1 = None ∨ (coordinates el).2 = None.
Proof.
  unfold normalize.
  destruct (coordinates el) as [[la|] [lo|]]; simpl; split;
    try done; auto; by intros [?|?].
Qed.

Lemma normalize_name_nonempty (el : Element) (r : Result) :
  normalize el = Some r → name r ≠ EmptyString.
Proof.
  intros (la & lo & _ & ->)%normalize_Some. simpl.
  destruct (truthy_str _) as [s|] eqn:Hs; simpl; [|done].
  by apply truthy_str_Some in Hs as [_ ?].
Qed.

(** C6: the name is the [name] tag when it is present and non-empty and
    ["Laundromat"] otherwise; the address is the street line (housenumber,
    space, street), the locality line (city, else town, else village, joined
    with state, else province) and the postcode, the present ones joined by
    [", "], null and never the empty string when there is none, and then
    the [addr:full] tag.  The point element tagged Clean Co, 12 Main St,
    Springfield at (1.0, 2.0) normalizes to that name, the address
    "12 Main St, Springfield", these coordinates and no distance. *)
Theorem normalize_name_and_address :
  (∀ el r,
     normalize el = Some r →
     name r = Spec.name_of (default ∅ (el_tags el)) ∧
     address r = Spec.address_of (default ∅ (el_tags el)) ∧
     build_address (default ∅ (el_tags el))
       = Spec.structured_address (default ∅ (el_tags el)) ∧
     build_address (default ∅ (el_tags el)) ≠ Some EmptyString) ∧
  (∀ i, ∃ r,
     normalize (Fixture.clean_co i) = Some r ∧
     name r = "Clean Co" ∧
     address r = Some "12 Main St, Springfield" ∧
     lat r = Some (Float 1) ∧ lon r = Some (Float 2) ∧
     distance_km r = None).
Proof.
  split.
  - intros el r (la & lo & _ & ->)%normalize_Some. simpl.
    split_and!.
    + unfold Spec.name_of. by rewrite truthy_str_present.
    + apply address_fallback.
    + apply build_address_structured.
    + rewrite build_address_structured. apply structured_address_nonempty.
  - intros i. eexists. split; [reflexivity|]. by vm_compute.
Qed.

Lemma normalize_name_and_address_witness :
  ∃ r, normalize Fixture.unnamed_way = Some r ∧
       name r = "Laundromat" ∧ address r = None.
Proof.
  eexists. split; [reflexivity|].
  destruct (proj1 normalize_name_and_address Fixture.unnamed_way _ eq_refl)
    as (Hn & Ha & _).
  split; [exact Hn | exact Ha].
Defined.

(** ** The pipeline *)

Lemma collect_omap (elements : list Element) :
  collect elements = omap normalize elements.
Proof.
  unfold collect.
  enough (∀ acc,
    fold_left (λ results el,
                 match normalize el with
                 | Some d => results ++ [d]
                 | None => results
                 end) elements acc = acc ++ omap normalize elements)
    as H by apply H.
  induction elements as [|el els IH]; intros acc; simpl.
  - by rewrite app_nil_r.
  - rewrite IH. destruct (normalize el); [|done].
    by rewrite <-app_assoc.
Qed.

Lemma collect_elem (elements : list Element) (r : Result) :
  r ∈ collect elements ↔ ∃ el, el ∈ elements ∧ normalize el = Some r.
Proof. rewrite collect_omap. apply list_elem_of_omap. Qed.

Lemma sort_key_name (r : Result) : name r ≠ EmptyString → sort_key r = name r.
Proof. unfold sort_key. by destruct (name r). Qed.

Lemma collect_sort_key (elements : list Element) :
  Forall (λ r, name r ≠ EmptyString ∧ sort_key r = name r) (collect elements).
Proof.
  apply Forall_forall. intros r (el & _ & Hel)%collect_elem.
  apply normalize_name_nonempty in Hel. split; [done|].
  by apply sort_key_name.
Qed.

Lemma insert_by_ext {A : Type} (k1 k2 : A → string) (x : A) (l : list A) :
  k1 x = k2 x → Forall (λ y, k1 y = k2 y) l →
  insert_by k1 x l = insert_by k2 x l.
Proof.
  intros Hx. induction 1 as [|y l Hy _ IH]; simpl; [done|].
  by rewrite Hx, Hy, IH.
Qed.

Lemma sorted_ext {A : Type} (k1 k2 : A → string) (l : list A) :
  Forall (λ y, k1 y = k2 y) l → sorted k1 l = sorted k2 l.
Proof.
  induction 1 as [|x l Hx Hl IH]; simpl; [done|].
  fold (sorted k1 l) (sorted k2 l). rewrite IH.
  apply insert_by_ext; [done|].
  by rewrite sorted_perm.
Qed.

Lemma collect_sorted_by_name (elements : list Element) :
  sorted sort_key (collect elements) = sorted name (collect elements).
Proof.
  apply sorted_ext. eapply Forall_impl; [apply collect_sort_key|].
  by intros r [_ ?].
Qed.

Section Pipeline.

Context {rt : Runtime}.

Ltac run_io :=
  unfold mbind, IO_bind, bind, mret, IO_ret, ret, raise, lift,
    requests_get, requests_post.

(** [geocode_location] sends its one request whatever the reply, and its
    outcome does not depend on the requests sent before. *)
Lemma geocode_location_run (q : string) (log : list request) :
  geocode_location q log
  = ((geocode_location q []).1, log ++ [geocode_request q]).
Proof.
  unfold geocode_location. run_io. fold (geocode_request q).
  destruct (geocoder web _) as [r|]; [|done].
  destruct (status_code r =? 200); simpl; [|done].
  destruct (json r) as [|item rest]; [done|].
  destruct (float_ (place_lat item)); [|done].
  by destruct (float_ (place_lon item)).
Qed.

Ltac geocode_cases q :=
  rewrite (geocode_location_run q); simpl;
  unfold geocode_location; run_io; fold (geocode_request q);
  destruct (geocoder web (geocode_request q)) as [r|] eqn:Hr;
    [destruct (Z.eqb_spec (status_code r) 200) as [Hs|Hs]; simpl;
       [destruct (json r) as [|item rest] eqn:Hj; simpl;
          [|destruct (float_ (place_lat item)) eqn:Hla; simpl;
              [destruct (float_ (place_lon item)) eqn:Hlo; simpl|]]|]|];
  (split;
   [intros ?; simplify_eq/=; eauto 12
   |intros ?; break_hyps; simplify_eq; try done; try congruence]).

(** [NotFound] is exactly a non-success status or an empty list. *)
Lemma geocode_NotFound (q : string) (log : list request) :
  (geocode_location q log).1 = Return None ↔
  ∃ rsp, geocoder web (geocode_request q) = Some rsp ∧
         (status_code rsp ≠ 200 ∨ json rsp = []).
Proof.
  geocode_cases q.
Qed.

Lemma geocode_found (q : string) (log : list request) (c : Center) :
  (geocode_location q log).1 = Return (Some c) ↔
  ∃ rsp item rest la lo,
    geocoder web (geocode_request q) = Some rsp ∧
    status_code rsp = 200 ∧ json rsp = item :: rest ∧
    float_ (place_lat item) = Return la ∧
    float_ (place_lon item) = Return lo ∧
    c = {| c_lat := la; c_lon := lo;
           c_display_name := place_display_name item |}.
Proof.
  geocode_cases q.
Qed.

Lemma geocode_raises (q : string) (log : list request) (e : exn) :
  (geocode_location q log).1 = Raise e ↔
  (geocoder web (geocode_request q) = None ∧ e = RequestException) ∨
  ∃ rsp item rest,
    geocoder web (geocode_request q) = Some rsp ∧
    status_code rsp = 200 ∧ json rsp = item :: rest ∧
    (float_ (place_lat item) = Raise e ∨
     (∃ la, float_ (place_lat item) = Return la) ∧
     float_ (place_lon item) = Raise e).
Proof.
  geocode_cases q.
Qed.

(** The whole of [search_laundromats], by the outcome of each step. *)
Lemma search_laundromats_run (q : string) (radius_km : float)
    (max_results : Z) (log : list request) :
  search_laundromats q radius_km max_results log =
  match (geocode_location q []).1 with
  | Raise e => (Raise e, log ++ [geocode_request q])
  | Return None =>
      (Raise (HTTPException 404
                "Location not found. Try a different search."),
       log ++ [geocode_request q])
  | Return (Some c) =>
      match int_of_float (radius_km * 1000)%float with
      | Raise e => (Raise e, log ++ [geocode_request q])
      | Return radius_m =>
          let rq := spatial_request c radius_m max_results in
          (match spatial web rq with
           | None => Raise RequestException
           | Some rsp =>
               if status_code rsp =? 200
               then Return (response_of c max_results rsp)
               else Raise (HTTPException 502
                      "Upstream map service error. Please try again later.")
           end, log ++ [geocode_request q; rq])
      end
  end.
Proof.
  unfold search_laundromats.
  unfold mbind at 1, IO_bind at 1, bind at 1.
  rewrite geocode_location_run.
  destruct (geocode_location q []).1 as [[c|]|e]; [|done..].
  run_io. destruct (int_of_float _) as [radius_m|e]; [|done].
  fold (spatial_request c radius_m max_results).
  rewrite <-app_assoc. simpl.
  destruct (spatial web _) as [rsp|]; [|done].
  by destruct (status_code rsp =? 200).
Qed.

Lemma search_returns (q : string) (radius_km : float) (max_results : Z)
    (log log' : list request) (resp : SearchResponse) :
  search_laundromats q radius_km max_results log = (Return resp, log') ↔
  ∃ c radius_m rsp,
    (geocode_location q log).1 = Return (Some c) ∧
    int_of_float (radius_km * 1000)%float = Return radius_m ∧
    spatial web (spatial_request c radius_m max_results) = Some rsp ∧
    status_code rsp = 200 ∧
    resp = response_of c max_results rsp ∧
    log' = log ++ [geocode_request q;
                   spatial_request c radius_m max_results].
Proof.
  rewrite search_laundromats_run, (geocode_location_run q log). simpl.
  destruct (geocode_location q []).1 as [[c|]|e]; [|trivial_iff..].
  destruct (int_of_float _) as [radius_m|e]; [|trivial_iff].
  simpl. destruct (spatial web _) as [rsp|] eqn:Hsp; [|trivial_iff].
  destruct (Z.eqb_spec (status_code rsp) 200); [|trivial_iff].
  split.
  - intros [= <- <-]. by exists c, radius_m, rsp.
  - intros (c' & rm' & rsp' & [= <-] & [= <-] & Hsp' & _ & -> & ->).
    rewrite Hsp in Hsp'. by simplify_eq.
Qed.

Lemma api_search_returns (q : string) (radius_km : float) (max_results : Z)
    (log log' : list request) (resp : SearchResponse) :
  api_search q radius_km max_results log = (Return resp, log') ↔
  valid_args radius_km max_results = true ∧
  search_laundromats q radius_km max_results log = (Return resp, log').
Proof.
  unfold api_search.
  destruct (valid_args radius_km max_results); [tauto|].
  unfold raise. trivial_iff.
Qed.

Lemma valid_args_max_results (radius_km : float) (max_results : Z) :
  valid_args radius_km max_results = true → 1 ≤ max_results ≤ 100.
Proof.
  unfold valid_args. rewrite !andb_true_iff. lia.
Qed.

End Pipeline.

(** ** [int(f)] truncates *)

Lemma int_of_float_truncation (f : float) (z : Z) :
  int_of_float f = Return z ↔ Spec.truncation f z.
Proof.
  unfold int_of_float, Spec.truncation.
  destruct (Prim2SF f) as [s|s| |s m e]; try (split; [congruence|done]).
  - split; [by intros [= <-]|by intros ->].
  - assert (z = (if s then - Z.pos m else Z.pos m) * 2 ^ Z.max e 0
                  ÷ 2 ^ Z.max (- e) 0
            ↔ z = (if s then - (if 0 <=? e then Z.pos m * 2 ^ e
                                else Z.pos m / 2 ^ (- e))
                   else (if 0 <=? e then Z.pos m * 2 ^ e
                         else Z.pos m / 2 ^ (- e)))) as ->.
    { destruct (Z.leb_spec 0 e) as [He|He].
      - rewrite Z.max_l, Z.max_r by lia. rewrite Z.quot_1_r.
        destruct s; split; intros ->; lia.
      - rewrite Z.max_r, Z.max_l by lia. rewrite Z.mul_1_r.
        assert (0 < 2 ^ (- e)) as Hp by (apply Z.pow_pos_nonneg; lia).
        destruct s.
        + rewrite Z.quot_opp_l, Z.quot_div_nonneg by lia. done.
        + rewrite Z.quot_div_nonneg by lia. done. }
    split; [by intros [= <-]|by intros ->].
Qed.

(** ** [strip] on the query template *)

Lemma rstrips_to_app (a b b' : string) :
  rstrips_to b b' → rstrips_to (a +:+ b) (a +:+ b').
Proof.
  intros [<- Hne]. induction a as [|x a [IH1 IH2]]; [done|].
  change (String x a +:+ b) with (String x (a +:+ b)).
  change (String x a +:+ rstrip b) with (String x (a +:+ rstrip b)).
  split; [|done]. cbn [rstrip]. rewrite IH1.
  by destruct (a +:+ rstrip b).
Qed.

Lemma rstrips_to_eq (b b' c : string) :
  rstrips_to b b' → b' = c → rstrips_to b c.
Proof. by intros ? <-. Qed.

Lemma six_combinations_eq :
  Spec.six_combinations
  = [ {| Spec.sel_geometry := Spec.Point; Spec.sel_key := "shop";
         Spec.sel_value := "laundry" |};
      {| Spec.sel_geometry := Spec.Area; Spec.sel_key := "shop";
         Spec.sel_value := "laundry" |};
      {| Spec.sel_geometry := Spec.Point; Spec.sel_key := "amenity";
         Spec.sel_value := "laundry" |};
      {| Spec.sel_geometry := Spec.Area; Spec.sel_key := "amenity";
         Spec.sel_value := "laundry" |};
      {| Spec.sel_geometry := Spec.Point; Spec.sel_key := "amenity";
         Spec.sel_value := "laundrette" |};
      {| Spec.sel_geometry := Spec.Area; Spec.sel_key := "amenity";
         Spec.sel_value := "laundrette" |} ].
Proof. reflexivity. Qed.

(** Walk down a chain of appends to the end of the template. *)
Ltac rstrip_chain :=
  lazymatch goal with
  | |- rstrips_to (";" +:+ nl +:+ "    ") _ => by split
  | |- rstrips_to (_ +:+ _) _ => apply rstrips_to_app; rstrip_chain
  end.

Section Query.
Context {rt : Runtime}.

Lemma strip_query_template (radius_m : Z) (lat lon : float)
    (max_results : Z) :
  strip (query_template radius_m lat lon max_results)
  = Spec.render str_float (Spec.build lat lon radius_m max_results).
Proof.
  unfold strip.
  enough (rstrips_to (lstrip (query_template radius_m lat lon max_results))
            (Spec.render str_float
               (Spec.build lat lon radius_m max_results))) as [? _]
    by done.
  unfold query_template, Spec.render, Spec.build, Spec.render_selector.
  cbn [Spec.q_selectors Spec.q_radius_m Spec.q_lat Spec.q_lon Spec.q_cap].
  rewrite six_combinations_eq.
  cbn [foldr Spec.sel_geometry Spec.sel_key Spec.sel_value Spec.keyword].
  rewrite !append_assoc.
  lazymatch goal with
  | |- rstrips_to (lstrip (nl +:+ "    [out:json][timeout:25];" +:+ ?rest)) _ =>
      change (lstrip (nl +:+ "    [out:json][timeout:25];" +:+ rest))
        with ("[out:json][timeout:25];" +:+ rest)
  end.
  eapply rstrips_to_eq; [rstrip_chain|].
  reflexivity.
Qed.
End Query.

(** ** The search operation *)

Section Search.

Context {rt : Runtime}.

Lemma response_of_results (c : Center) (max_results : Z)
    (rsp : Response Overpass) :
  results (response_of c max_results rsp)
  `prefix_of`
  sorted name (omap normalize (default [] (ov_elements (json rsp)))).
Proof.
  unfold response_of. simpl.
  rewrite collect_sorted_by_name, collect_omap. apply slice_to_prefix.
Qed.

Lemma response_of_elem (c : Center) (max_results : Z)
    (rsp : Response Overpass) (r : Result) :
  r ∈ results (response_of c max_results rsp) →
  ∃ el, el ∈ default [] (ov_elements (json rsp)) ∧ normalize el = Some r.
Proof.
  intros Hr. apply list_elem_of_omap.
  rewrite <-(sorted_perm name).
  by eapply elem_of_prefix; [|apply response_of_results].
Qed.

(** C1: every result of a response the search returns has a latitude and
    a longitude that are not null and a null distance; each stems from an
    element of the upstream reply whose coordinates it carries, and an
    element with a missing coordinate yields no result. *)
Theorem results_have_coordinates (q : string) (radius_km : float)
    (max_results : Z) (log log' : list request) (resp : SearchResponse) :
  api_search q radius_km max_results log = (Return resp, log') →
  Forall (λ r, lat r ≠ None ∧ lon r ≠ None ∧ distance_km r = None)
         (results resp) ∧
  (∃ c radius_m rsp,
     spatial web (spatial_request c radius_m max_results) = Some rsp ∧
     ∀ r, r ∈ results resp →
          ∃ el, el ∈ default [] (ov_elements (json rsp)) ∧
                normalize el = Some r ∧
                coordinates el = (lat r, lon r)) ∧
  (∀ el, (coordinates el).1 = None ∨ (coordinates el).2 = None →
         normalize el = None).
Proof.
  intros [_ (c & rm & rsp & _ & _ & Hsp & _ & -> & _)%search_returns]
    %api_search_returns.
  assert (∀ r, r ∈ results (response_of c max_results rsp) →
               ∃ el, el ∈ default [] (ov_elements (json rsp)) ∧
                     normalize el = Some r ∧
                     coordinates el = (lat r, lon r) ∧
                     lat r ≠ None ∧ lon r ≠ None ∧ distance_km r = None)
    as Hall.
  { intros r (el & Hel & Hn)%response_of_elem.
    exists el. split_and!; [done..| | | |];
      apply normalize_Some in Hn as (la & lo & Hc & ->); done. }
  split_and!.
  - apply Forall_forall. intros r (el & _ & _ & _ & ?)%Hall. done.
  - exists c, rm, rsp. split; [done|].
    intros r (el & ? & ? & ? & _)%Hall. eauto.
  - intros el. apply normalize_None.
Qed.

(** C3: a response the search returns holds at most [max_results]
    results, and its [count] is the length of [results] as sorted and
    truncated. *)
Theorem results_capped (q : string) (radius_km : float) (max_results : Z)
    (log log' : list request) (resp : SearchResponse) :
  api_search q radius_km max_results log = (Return resp, log') →
  len (results resp) ≤ max_results ∧ count resp = len (results resp).
Proof.
  intros [Hv (c & rm & rsp & _ & _ & _ & _ & -> & _)%search_returns]
    %api_search_returns.
  apply valid_args_max_results in Hv.
  split; [|done]. unfold response_of. simpl. apply slice_to_len. lia.
Qed.

(** C4: the results of a response the search returns are in ascending
    order of name, compared as strings, case-sensitively: of two adjacent
    results the name of the first is at most the name of the second. *)
Theorem results_sorted_by_name (q : string) (radius_km : float)
    (max_results : Z) (log log' : list request) (resp : SearchResponse) :
  api_search q radius_km max_results log = (Return resp, log') →
  ∀ i a b,
    results resp !! i = Some a → results resp !! S i = Some b →
    (name a ≤ name b)%string.
Proof.
  intros [_ (c & rm & rsp & _ & _ & _ & _ & -> & _)%search_returns]
    %api_search_returns i a b Ha Hb.
  eapply (sorted_adjacent name); [|exact Ha|exact Hb].
  eapply prefix_sorted; [apply response_of_results|apply sorted_sorted].
Qed.

(** C5: when the geocoder returns [None] for the query (a status other
    than 200 or an empty list of matches), the search raises the 404
    "Location not found" and has sent the geocoding request only: no
    request goes to the spatial database. *)
Theorem location_not_found (q : string) (radius_km : float)
    (max_results : Z) (log : list request) :
  (geocode_location q log).1 = Return None →
  (∃ rsp, geocoder web (geocode_request q) = Some rsp ∧
          (status_code rsp ≠ 200 ∨ json rsp = [])) ∧
  search_laundromats q radius_km max_results log
  = (Raise (HTTPException 404 "Location not found. Try a different search."),
     log ++ [geocode_request q]) ∧
  is_POST (geocode_request q) = false ∧
  (valid_args radius_km max_results = true →
   api_search q radius_km max_results log
   = search_laundromats q radius_km max_results log).
Proof.
  intros Hg. split_and!.
  - by apply (geocode_NotFound q log).
  - rewrite search_laundromats_run.
    rewrite geocode_location_run in Hg. simpl in Hg. by rewrite Hg.
  - done.
  - intros Hv. unfold api_search. by rewrite Hv.
Qed.

(** C2, as the program has it: when the geocoder answers 200 with at
    least one match and [float] raises on the latitude of the first match,
    or on its longitude, [geocode_location] raises that exception and the
    search raises it too, instead of the 404; the exception is a
    [TypeError] exactly when the value [float] was given is missing and a
    [ValueError] exactly when it is a string [float] cannot parse; the
    result is not [None].  [None] is returned exactly when the geocoder
    answers with a status other than 200 or with an empty list of
    matches. *)
Theorem geocode_parse_failure_raises (q : string) (radius_km : float)
    (max_results : Z) (log : list request) (rsp : Response (list Place))
    (item : Place) (rest : list Place) (e : exn) :
  geocoder web (geocode_request q) = Some rsp →
  status_code rsp = 200 →
  json rsp = item :: rest →
  float_ (place_lat item) = Raise e ∨
  (∃ la, float_ (place_lat item) = Return la) ∧
  float_ (place_lon item) = Raise e →
  geocode_location q log = (Raise e, log ++ [geocode_request q]) ∧
  (e = TypeError ∨ e = ValueError) ∧
  search_laundromats q radius_km max_results log
  = (Raise e, log ++ [geocode_request q]) ∧
  (e = TypeError ↔
   place_lat item = None ∨
   (∃ la, float_ (place_lat item) = Return la) ∧ place_lon item = None) ∧
  (e = ValueError ↔
   (∃ s, place_lat item = Some s ∧ float_of_str s = None) ∨
   (∃ la, float_ (place_lat item) = Return la) ∧
   ∃ s, place_lon item = Some s ∧ float_of_str s = None) ∧
  (geocode_location q log).1 ≠ Return None ∧
  (∀ q' log',
     (geocode_location q' log').1 = Return None ↔
     ∃ rsp', geocoder web (geocode_request q') = Some rsp' ∧
             (status_code rsp' ≠ 200 ∨ json rsp' = [])).
Proof.
  intros Hr Hs Hj Hf.
  assert ((geocode_location q []).1 = Raise e) as Hg.
  { apply geocode_raises. right. by exists rsp, item, rest. }
  split_and!.
  - by rewrite geocode_location_run, Hg.
  - unfold float_ in Hf.
    destruct Hf as [Hf|[_ Hf]];
      [destruct (place_lat item) as [s|]|destruct (place_lon item) as [s|]];
      try destruct (float_of_str s); simplify_eq; auto.
  - by rewrite search_laundromats_run, Hg.
  - unfold float_ in *.
    destruct (place_lat item) as [s|]; [destruct (float_of_str s) as [la|]|];
      (destruct (place_lon item) as [s'|];
         [destruct (float_of_str s') as [lo|]|]);
      destruct Hf as [Hf|[[la' Hla] Hf]]; simplify_eq;
      (split; [intros ?; simplify_eq; eauto
              |intros ?; break_hyps; simplify_eq; done]).
  - unfold float_ in *.
    destruct (place_lat item) as [s|]; [destruct (float_of_str s) as [la|] eqn:Hs1|];
      (destruct (place_lon item) as [s'|];
         [destruct (float_of_str s') as [lo|] eqn:Hs2|]);
      destruct Hf as [Hf|[[la' Hla] Hf]]; simplify_eq;
      (split; [intros ?; simplify_eq; eauto 8
              |intros ?; break_hyps; simplify_eq; try done; congruence]).
  - rewrite geocode_location_run. simpl. by rewrite Hg.
  - intros q' log'. apply geocode_NotFound.
Qed.

(** C7: the radius in meters is the product [radius_km * 1000] truncated
    to an integer, and the one request sent to the spatial database is
    the query for the six combinations (shop=laundry, amenity=laundry,
    amenity=laundrette, each as point and as area) around the center
    within that radius, capped at [max_results] records. *)
Theorem spatial_query_built (q : string) (radius_km : float)
    (max_results : Z) (log : list request) (c : Center) (radius_m : Z) :
  (geocode_location q log).1 = Return (Some c) →
  Spec.truncation (radius_km * 1000)%float radius_m →
  (search_laundromats q radius_km max_results log).2
  = log ++ [geocode_request q;
            POST "https://overpass-api.de/api/interpreter"
              (Spec.render str_float
                 (Spec.build (c_lat c) (c_lon c) radius_m max_results))
              [("User-Agent", OSM_USER_AGENT);
               ("Content-Type", "text/plain")] 45] ∧
  Spec.q_selectors (Spec.build (c_lat c) (c_lon c) radius_m max_results)
  = [ {| Spec.sel_geometry := Spec.Point; Spec.sel_key := "shop";
         Spec.sel_value := "laundry" |};
      {| Spec.sel_geometry := Spec.Area; Spec.sel_key := "shop";
         Spec.sel_value := "laundry" |};
      {| Spec.sel_geometry := Spec.Point; Spec.sel_key := "amenity";
         Spec.sel_value := "laundry" |};
      {| Spec.sel_geometry := Spec.Area; Spec.sel_key := "amenity";
         Spec.sel_value := "laundry" |};
      {| Spec.sel_geometry := Spec.Point; Spec.sel_key := "amenity";
         Spec.sel_value := "laundrette" |};
      {| Spec.sel_geometry := Spec.Area; Spec.sel_key := "amenity";
         Spec.sel_value := "laundrette" |} ].
Proof.
  intros Hg Ht. split; [|apply six_combinations_eq].
  apply int_of_float_truncation in Ht.
  rewrite geocode_location_run in Hg. simpl in Hg.
  rewrite search_laundromats_run, Hg, Ht. simpl.
  unfold spatial_request. by rewrite strip_query_template.
Qed.

(** C8: the outcome of a search and the requests it sends are a function
    of the arguments and the upstream fixture, whatever was sent before;
    in a response, results of the same name come in the order in which the
    upstream reply lists their elements. *)
Theorem search_deterministic (q : string) (radius_km : float)
    (max_results : Z) (log1 log2 : list request) :
  (api_search q radius_km max_results log1).1
  = (api_search q radius_km max_results log2).1 ∧
  (∃ sent,
     (api_search q radius_km max_results log1).2 = log1 ++ sent ∧
     (api_search q radius_km max_results log2).2 = log2 ++ sent) ∧
  (∀ resp,
     (api_search q radius_km max_results log1).1 = Return resp →
     ∃ c radius_m rsp,
       spatial web (spatial_request c radius_m max_results) = Some rsp ∧
       ∀ n, filter (λ r, name r = n) (results resp)
            `prefix_of`
            filter (λ r, name r = n)
              (omap normalize (default [] (ov_elements (json rsp))))).
Proof.
  unfold api_search.
  destruct (valid_args radius_km max_results).
  - rewrite !search_laundromats_run.
    destruct (geocode_location q []).1 as [[c|]|e]; simpl;
      [|split_and!; [done|by eexists|done]..].
    destruct (int_of_float _) as [rm|e]; simpl;
      [|split_and!; [done|by eexists|done]].
    split_and!; [done|by eexists|].
    intros resp Hresp.
    destruct (spatial web _) as [rsp|] eqn:Hsp; [|done].
    destruct (status_code rsp =? 200); [|done].
    injection Hresp as <-.
    exists c, rm, rsp. split; [done|]. intros n.
    rewrite <-(sorted_stable name n (omap normalize _)).
    apply prefix_filter, response_of_results.
  - unfold raise. simpl. split_and!; [done| |done].
    exists []. by rewrite !app_nil_r.
Qed.

End Search.

(** C10: the name of a normalized result is never the empty string, so
    the sort key [x["name"] or "zzzz"] is the name itself and the sort
    orders the results by their stored names. *)
Theorem name_never_empty :
  (∀ el r, normalize el = Some r →
           name r ≠ EmptyString ∧ sort_key r = name r) ∧
  (∀ elements,
     sorted sort_key (collect elements) = sorted name (collect elements)).
Proof.
  split.
  - intros el r Hn. apply normalize_name_nonempty in Hn.
    split; [done|]. by apply sort_key_name.
  - apply collect_sorted_by_name.
Qed.

(** ** The properties on the fixtures *)

Lemma results_have_coordinates_witness :
  Fixture.run = (Return Fixture.response, Fixture.sent) ∧
  Forall (λ r, lat r ≠ None ∧ lon r ≠ None ∧ distance_km r = None)
         (results Fixture.response).
Proof.
  split; [by vm_compute|].
  eapply proj1,
    (results_have_coordinates (rt := Fixture.runtime Fixture.found)
       "Springfield" 1.234375 3 [] Fixture.sent Fixture.response).
  by vm_compute.
Defined.

Lemma results_capped_witness :
  Fixture.run = (Return Fixture.response, Fixture.sent) ∧
  len (results Fixture.response) ≤ 3 ∧
  count Fixture.response = len (results Fixture.response).
Proof.
  split; [by vm_compute|].
  apply (results_capped (rt := Fixture.runtime Fixture.found)
           "Springfield" 1.234375 3 [] Fixture.sent Fixture.response).
  by vm_compute.
Defined.

Lemma results_sorted_by_name_witness :
  ∃ a b,
    results Fixture.response !! 1%nat = Some a ∧
    results Fixture.response !! 2%nat = Some b ∧
    name a = "Clean Co" ∧ name b = "Laundromat" ∧
    (name a ≤ name b)%string.
Proof.
  eexists _, _. split_and!; [by vm_compute..|].
  eapply (results_sorted_by_name (rt := Fixture.runtime Fixture.found)
            "Springfield" 1.234375 3 [] Fixture.sent Fixture.response
            ltac:(by vm_compute) 1%nat); by vm_compute.
Defined.

Lemma location_not_found_witness :
  (geocode_location (rt := Fixture.runtime Fixture.no_match)
     "Qwxzplorp123" []).1 = Return None ∧
  search_laundromats (rt := Fixture.runtime Fixture.no_match)
    "Qwxzplorp123" 5 50 []
  = (Raise (HTTPException 404 "Location not found. Try a different search."),
     [geocode_request (rt := Fixture.runtime Fixture.no_match)
        "Qwxzplorp123"]).
Proof.
  split; [by vm_compute|].
  eapply proj1, proj2,
    (location_not_found (rt := Fixture.runtime Fixture.no_match)
       "Qwxzplorp123" 5 50 []).
  by vm_compute.
Defined.

Lemma geocode_parse_failure_raises_witness :
  float_ (rt := Fixture.runtime Fixture.malformed_match)
    (place_lat Fixture.malformed) = Raise ValueError ∧
  geocode_location (rt := Fixture.runtime Fixture.malformed_match)
    "Springfield" []
  = (Raise ValueError,
     [geocode_request (rt := Fixture.runtime Fixture.malformed_match)
        "Springfield"]).
Proof.
  split; [by vm_compute|].
  eapply proj1,
    (geocode_parse_failure_raises
       (rt := Fixture.runtime Fixture.malformed_match)
       "Springfield" 5 50 []
       {| status_code := 200; json := [Fixture.malformed] |}
       Fixture.malformed [] ValueError);
    [by vm_compute..|left; by vm_compute].
Defined.

(** C2 as the specification states it fails: the geocoder answers 200 with
    one match whose latitude is "not-a-number"; [float] raises
    [ValueError] on it and so does [geocode_location], which does not
    return [None]. *)
Lemma geocode_parse_failure_not_NotFound :
  ¬ ∀ (rt : Runtime) (q : string) (log : list request)
      (rsp : Response (list Place)) (item : Place) (rest : list Place),
      geocoder web (geocode_request q) = Some rsp →
      status_code rsp = 200 →
      json rsp = item :: rest →
      (∃ e, float_ (place_lat item) = Raise e ∨
            float_ (place_lon item) = Raise e) →
      (geocode_location q log).1 = Return None.
Proof.
  intros H.
  specialize (H (Fixture.runtime Fixture.malformed_match) "Springfield" []
                {| status_code := 200; json := [Fixture.malformed] |}
                Fixture.malformed [] eq_refl eq_refl eq_refl).
  assert ((geocode_location (rt := Fixture.runtime Fixture.malformed_match)
             "Springfield" []).1 = Raise ValueError) as Hrun
    by (by vm_compute).
  rewrite Hrun in H. discriminate H.
  exists ValueError. left. by vm_compute.
Qed.

Lemma spatial_query_built_witness :
  Spec.truncation (1.234375 * 1000)%float 1234 ∧
  (search_laundromats (rt := Fixture.runtime Fixture.found)
     "Springfield" 1.234375 3 []).2
  = [geocode_request (rt := Fixture.runtime Fixture.found) "Springfield";
     POST "https://overpass-api.de/api/interpreter"
       (Spec.render Fixture.show (Spec.build 39.75 (-89.5) 1234 3))
       [("User-Agent", Fixture.user_agent); ("Content-Type", "text/plain")]
       45].
Proof.
  split; [by vm_compute|].
  eapply proj1,
    (spatial_query_built (rt := Fixture.runtime Fixture.found)
       "Springfield" 1.234375 3 [] Fixture.center 1234);
    by vm_compute.
Defined.

Lemma search_deterministic_witness :
  (api_search (rt := Fixture.runtime Fixture.found)
     "Springfield" 1.234375 3 []).1
  = (api_search (rt := Fixture.runtime Fixture.found)
       "Springfield" 1.234375 3 Fixture.sent).1.
Proof.
  eapply proj1,
    (search_deterministic (rt := Fixture.runtime Fixture.found)
       "Springfield" 1.234375 3 [] Fixture.sent).
Defined.

Lemma name_never_empty_witness :
  ∃ r, normalize Fixture.bare_relation = Some r ∧
       name r ≠ EmptyString ∧ sort_key r = name r.
Proof.
  eexists. split; [reflexivity|].
  eapply (proj1 name_never_empty Fixture.bare_relation). reflexivity.
Defined.

(** ** The loop body on raw elements *)

(** On an element typed as Overpass documents it, the raw body does what
    [normalize] does. *)
Lemma normalize_raw_of (el : Element) :
  normalize_raw (raw_of el) = Return (normalize el).
Proof.
  unfold normalize_raw, normalize, tags_of, coordinates_raw, coordinates,
    raw_of.
  destruct el as [ty i la lo ce tg]; simpl.
  destruct tg as [tags|]; simpl;
    (destruct (decide (ty = Some "node")) as [_|_]; simpl;
       [destruct la, lo; done|]);
    (destruct ce as [[cla clo]|]; simpl; [destruct cla, clo; done|done]).
Qed.

Lemma collect_raw_of (elements : list Element) (results : list Result) :
  collect_raw (raw_of <$> elements) results
  = Return (fold_left
              (λ results el,
                 match normalize el with
                 | Some d => results ++ [d]
                 | None => results
                 end)
              elements results).
Proof.
  revert results. induction elements as [|el elements IH]; intros results;
    simpl; [done|].
  rewrite normalize_raw_of. destruct (normalize el); apply IH.
Qed.

(** The body raises nothing but [AttributeError]. *)
Lemma normalize_raw_raises (el : RawElement) (e : exn) :
  normalize_raw el = Raise e → e = AttributeError.
Proof.
  unfold normalize_raw, tags_of, coordinates_raw.
  destruct (raw_tags el); [| |by intros [= <-]];
    (destruct (decide _); [by destruct (raw_lat el), (raw_lon el)|]);
    (destruct (raw_center el) as [|[cla clo]|v]; simpl;
       [done|by destruct cla, clo|]);
    (destruct (truthy_value v); [by intros [= <-]|done]).
Qed.

(** The body returns exactly on the well-shaped elements. *)
Lemma normalize_raw_returns (el : RawElement) :
  (∃ o, normalize_raw el = Return o) ↔ well_shaped el = true.
Proof.
  unfold normalize_raw, tags_of, coordinates_raw, well_shaped.
  destruct (raw_tags el) as [|tags|v]; simpl;
    [| |split; [by intros [? ?]|done]];
    (destruct (decide (raw_type el = Some "node")) as [Ht|Ht];
       [rewrite (bool_decide_eq_true_2 _ Ht); simpl;
        destruct (raw_lat el), (raw_lon el); split; eauto
       |rewrite (bool_decide_eq_false_2 _ Ht); simpl]);
    (destruct (raw_center el) as [|[cla clo]|v]; simpl;
       [split; eauto|destruct cla, clo; split; eauto|]);
    (destruct (truthy_value v); simpl;
       [split; [by intros [? ?]|done]|split; eauto]).
Qed.

Lemma collect_raw_returns (elements : list RawElement)
    (results : list Result) :
  (∃ rs, collect_raw elements results = Return rs) ↔
  Forall (λ el, well_shaped el = true) elements.
Proof.
  revert results. induction elements as [|el elements IH]; intros results;
    simpl.
  - split; [by constructor|by eexists].
  - rewrite Forall_cons, <-normalize_raw_returns.
    destruct (normalize_raw el) as [[d|]|e].
    + rewrite IH. split; [by eauto|by intros [_ ?]].
    + rewrite IH. split; [by eauto|by intros [_ ?]].
    + split; [by intros [? ?]|by intros [[? ?] _]].
Qed.

(** C9, as the program has it.  On raw elements whose [tags] and [center]
    may hold any JSON value, the loop body returns exactly when [tags] is
    missing or an object and, for an element of another type than "node",
    [center] is missing, an object or falsy; otherwise it raises
    [AttributeError], and so does the loop as soon as one element does.
    Where it returns: an element whose type is anything but "node", a
    missing type included, takes its coordinates from its [center] object
    and is dropped when there is none or when it lacks [lat] or [lon]; an
    element without tags is named "Laundromat" and has null address,
    opening hours, phone and website; on elements typed as documented the
    body and the loop are [normalize] and [collect]. *)
Theorem normalize_total_on_well_shaped :
  (∀ el, (∃ o, normalize_raw el = Return o) ↔ well_shaped el = true) ∧
  (∀ el e, normalize_raw el = Raise e → e = AttributeError) ∧
  (∀ el, (∃ v, raw_tags el = Other v) ∨
         raw_type el ≠ Some "node" ∧
         (∃ v, raw_center el = Other v ∧ truthy_value v = true) →
         normalize_raw el = Raise AttributeError) ∧
  (∀ el o, raw_type el ≠ Some "node" →
           normalize_raw el = Return o →
           match raw_center el with
           | Object center_obj =>
               match o with
               | Some r =>
                   lat r = co_lat center_obj ∧ lon r = co_lon center_obj ∧
                   is_Some (lat r) ∧ is_Some (lon r)
               | None =>
                   co_lat center_obj = None ∨ co_lon center_obj = None
               end
           | Missing | Other _ => o = None
           end) ∧
  (∀ el la lo,
     raw_tags el = Missing →
     coordinates_raw el = Return (Some la, Some lo) →
     ∃ r, normalize_raw el = Return (Some r) ∧ name r = "Laundromat" ∧
          address r = None ∧ opening_hours r = None ∧
          phone r = None ∧ website r = None) ∧
  (∀ elements results,
     (∃ rs, collect_raw elements results = Return rs) ↔
     Forall (λ el, well_shaped el = true) elements) ∧
  (∀ el, normalize_raw (raw_of el) = Return (normalize el)) ∧
  (∀ elements, collect_raw (raw_of <$> elements) [] = Return (collect elements)).
Proof.
  split_and!.
  - apply normalize_raw_returns.
  - apply normalize_raw_raises.
  - intros el H.
    destruct (normalize_raw el) as [o|e] eqn:Hn.
    + assert (well_shaped el = true) as Hw
        by (apply normalize_raw_returns; eauto).
      unfold well_shaped in Hw.
      destruct H as [[v Hv]|[Ht (v & Hv & Htv)]]; rewrite Hv in Hw;
        [done|].
      rewrite (bool_decide_eq_false_2 _ Ht), Htv in Hw.
      by destruct (raw_tags el).
    + by rewrite (normalize_raw_raises el e Hn).
  - intros el o Ht. unfold normalize_raw, coordinates_raw.
    destruct (tags_of el) as [tags|e]; [|done].
    destruct (decide _) as [|_]; [done|].
    destruct (raw_center el) as [|[cla clo]|v]; simpl.
    + by intros [= <-].
    + destruct cla, clo; intros [= <-]; simpl; eauto.
    + destruct (truthy_value v); [done|]. by intros [= <-].
  - intros el la lo Htags Hc. unfold normalize_raw, tags_of.
    rewrite Htags, Hc. eexists. split; [done|]. done.
  - apply collect_raw_returns.
  - apply normalize_raw_of.
  - intros elements. apply collect_raw_of.
Qed.

Lemma normalize_total_on_well_shaped_witness :
  well_shaped Cases.null_center = true ∧
  normalize_raw Cases.null_center = Return None ∧
  ∃ r, normalize_raw Cases.untyped_with_center = Return (Some r) ∧
       name r = "Laundromat" ∧ address r = None.
Proof.
  split; [reflexivity|]. split.
  - destruct (proj2 (proj1 normalize_total_on_well_shaped Cases.null_center)
                eq_refl) as [o Ho].
    rewrite Ho. f_equal.
    exact (proj1 (proj2 (proj2 (proj2 normalize_total_on_well_shaped)))
             Cases.null_center o ltac:(discriminate) Ho).
  - destruct (proj1 (proj2 (proj2 (proj2 (proj2
                normalize_total_on_well_shaped))))
                Cases.untyped_with_center (Float 3) (Float 4)
                eq_refl eq_refl) as (r & Hr & Hn & Ha & _).
    by exists r.
Defined.

(** C9 as the specification states it fails: a node whose ["tags"] is
    [null] and a way whose ["center"] is the number 5 make the loop body
    raise [AttributeError], so not every element shape is normalized
    without an error. *)
Lemma normalize_raises_on_malformed_element :
  normalize_raw Cases.null_tags = Raise AttributeError ∧
  normalize_raw Cases.numeric_center = Raise AttributeError ∧
  collect_raw [Cases.null_center; Cases.null_tags] [] = Raise AttributeError ∧
  ¬ ∀ el : RawElement, ∃ o, normalize_raw el = Return o.
Proof.
  split_and!; [reflexivity..|].
  intros H. destruct (H Cases.null_tags) as [o Ho]. discriminate Ho.
Qed.
(** ** Binary64 rounding of a product *)

Lemma digits2_pos_bounds (m : positive) :
  2 ^ (Z.pos (digits2_pos m) - 1) ≤ Z.pos m < 2 ^ Z.pos (digits2_pos m).
Proof.
  induction m as [m IH|m IH|]; simpl digits2_pos.
  - rewrite Pos2Z.inj_succ.
    replace (Z.succ (Z.pos (digits2_pos m)) - 1)
      with (Z.succ (Z.pos (digits2_pos m) - 1)) by lia.
    rewrite !Z.pow_succ_r by lia. lia.
  - rewrite Pos2Z.inj_succ.
    replace (Z.succ (Z.pos (digits2_pos m)) - 1)
      with (Z.succ (Z.pos (digits2_pos m) - 1)) by lia.
    rewrite !Z.pow_succ_r by lia. lia.
  - simpl. lia.
Qed.

Lemma digits2_pos_unique (m : positive) (d : Z) :
  2 ^ (d - 1) ≤ Z.pos m < 2 ^ d → Z.pos (digits2_pos m) = d.
Proof.
  intros [Hlo Hhi]. pose proof (digits2_pos_bounds m) as [Hlo' Hhi'].
  assert (0 < d).
  { destruct (Z.lt_trichotomy d 0) as [?|[->|?]]; [|simpl in *; lia|done].
    rewrite Z.pow_neg_r in Hhi by lia. lia. }
  assert (d - 1 < Z.pos (digits2_pos m)).
  { apply (Z.pow_lt_mono_r_iff 2); lia. }
  assert (Z.pos (digits2_pos m) - 1 < d).
  { apply (Z.pow_lt_mono_r_iff 2); lia. }
  lia.
Qed.

Lemma div2_xI (p : positive) : Z.pos p~1 / 2 = Z.pos p.
Proof. symmetry. apply (Z.div_unique _ _ _ 1); lia. Qed.

Lemma div2_xO (p : positive) : Z.pos p~0 / 2 = Z.pos p.
Proof. symmetry. apply (Z.div_unique _ _ _ 0); lia. Qed.

Lemma mod2_xI (p : positive) : Z.pos p~1 mod 2 = 1.
Proof. symmetry. apply (Z.mod_unique _ _ (Z.pos p)); lia. Qed.

Lemma shr_1_shifted (M k : Z) (mrs : shr_record) :
  0 ≤ M → 0 ≤ k → shifted M k mrs → shifted M (k + 1) (shr_1 mrs).
Proof.
  intros HM Hk [Hm Hrs].
  assert (0 < 2 ^ k) as Hp by (apply Z.pow_pos_nonneg; lia).
  assert (M / 2 ^ (k + 1) = (M / 2 ^ k) / 2) as Hq.
  { rewrite Z.pow_add_r, Z.pow_1_r by lia. rewrite Z.div_div by lia. done. }
  assert (M mod 2 ^ (k + 1) = 0 →
          M mod 2 ^ k = 0 ∧ (M / 2 ^ k) mod 2 = 0) as Hmod.
  { rewrite Z.pow_add_r, Z.pow_1_r by lia. intros H0.
    rewrite Z.rem_mul_r in H0 by lia. 
    pose proof (Z.mod_pos_bound M (2 ^ k) Hp).
    pose proof (Z.mod_pos_bound (M / 2 ^ k) 2 ltac:(lia)). nia. }
  assert (0 ≤ M / 2 ^ k) as Hge by (apply Z.div_pos; lia).
  destruct mrs as [m r s]. simpl in Hm, Hrs. subst m.
  unfold shifted. rewrite Hq. clear Hq.
  remember (M / 2 ^ k) as q eqn:Hd. clear Hd.
  destruct q as [|[p|p|]|p]; [| | | |lia]; simpl;
    rewrite ?div2_xI, ?div2_xO; (split; [done|]);
    intros [H1 H2]%Hmod; rewrite ?mod2_xI in H2; try discriminate H2;
    destruct (Hrs H1) as [-> ->]; auto.
Qed.

Lemma iter_pos_shifted (p : positive) (M k : Z) (mrs : shr_record) :
  0 ≤ M → 0 ≤ k → shifted M k mrs →
  shifted M (k + Z.pos p) (SpecFloat.iter_pos shr_1 p mrs).
Proof.
  intros HM. revert k mrs.
  induction p as [p IH|p IH|]; intros k mrs Hk Hs; simpl.
  - replace (k + Z.pos p~1) with (k + 1 + Z.pos p + Z.pos p) by lia.
    apply IH; [lia|]. apply IH; [lia|]. by apply shr_1_shifted.
  - replace (k + Z.pos p~0) with (k + Z.pos p + Z.pos p) by lia.
    apply IH; [lia|]. by apply IH.
  - by apply shr_1_shifted.
Qed.

Lemma shifted_0 (M : Z) :
  shifted M 0 {| shr_m := M; shr_r := false; shr_s := false |}.
Proof. split; simpl; [by rewrite Z.div_1_r|done]. Qed.

Lemma round_nearest_even_bounds (mrs : shr_record) :
  shr_m mrs ≤ round_nearest_even (shr_m mrs) (loc_of_shr_record mrs)
            ≤ shr_m mrs + 1 ∧
  (shr_r mrs = false ∧ shr_s mrs = false →
   round_nearest_even (shr_m mrs) (loc_of_shr_record mrs) = shr_m mrs).
Proof.
  destruct mrs as [m [|] [|]]; simpl; try destruct (Z.even m); split;
    try lia; try done; by intros [? ?].
Qed.

(** Rounding a positive mantissa of more than 53 digits, in the normal
    range: the result is finite, and its value on the grid [2 ^ e1] is the
    quotient [q] of the mantissa or [q + 1], and [q] when the division is
    exact. *)
Lemma binary_round_aux_finite (M : positive) (E d : Z) :
  Z.pos (digits2_pos M) = d → 53 < d →
  -1074 ≤ d + E - 53 → d + E - 53 < 971 →
  ∃ m'' e'',
    binary_round_aux 53 1024 false (Z.pos M) E loc_Exact
    = S754_finite false m'' e'' ∧
    (e'' = E + (d - 53) ∨ e'' = E + (d - 53) + 1) ∧
    Z.pos M / 2 ^ (d - 53)
      ≤ Z.pos m'' * 2 ^ (e'' - (E + (d - 53)))
      ≤ Z.pos M / 2 ^ (d - 53) + 1 ∧
    (Z.pos M mod 2 ^ (d - 53) = 0 →
     Z.pos m'' * 2 ^ (e'' - (E + (d - 53))) = Z.pos M / 2 ^ (d - 53)).
Proof.
  intros Hd Hd53 Hlo Hhi.
  set (n := d - 53). assert (0 < n) as Hn by (unfold n; lia).
  pose proof (digits2_pos_bounds M) as HM. rewrite Hd in HM.
  assert (0 < 2 ^ n) as Hpn by (apply Z.pow_pos_nonneg; lia).
  assert (2 ^ (d - 1) = 2 ^ 52 * 2 ^ n) as Hp1.
  { rewrite <-Z.pow_add_r by lia. f_equal. unfold n. lia. }
  assert (2 ^ d = 2 ^ 53 * 2 ^ n) as Hp2.
  { rewrite <-Z.pow_add_r by lia. f_equal. unfold n. lia. }
  set (q := Z.pos M / 2 ^ n).
  assert (2 ^ 52 ≤ q < 2 ^ 53) as Hq.
  { unfold q. split.
    - apply Z.div_le_lower_bound; lia.
    - apply Z.div_lt_upper_bound; lia. }
  unfold binary_round_aux, shr_fexp at 1.
  cbn [Zdigits2 shr_record_of_loc]. rewrite Hd.
  assert (fexp 53 1024 (d + E) - E = n) as ->.
  { unfold fexp, emin, n. lia. }
  destruct n as [|pn|pn] eqn:Hpn'; [lia| |lia].
  cbn [shr].
  pose proof (iter_pos_shifted pn (Z.pos M) 0
                {| shr_m := Z.pos M; shr_r := false; shr_s := false |}
                ltac:(lia) ltac:(lia) (shifted_0 _)) as [Hsm Hsrs].
  rewrite Z.add_0_l in Hsm, Hsrs. fold q in Hsm.
  destruct (SpecFloat.iter_pos shr_1 pn _) as [m r s] eqn:Hit.
  pose proof (round_nearest_even_bounds {| shr_m := m; shr_r := r; shr_s := s |})
    as [Hrb Hrx].
  cbn [shr_m shr_r shr_s] in *.
  set (m1 := round_nearest_even m (loc_of_shr_record _)) in *.
  subst m. clearbody m1.
  assert (m1 < 2 ^ 53 ∨ m1 = 2 ^ 53) as [Hm1|Hm1] by lia.
  - destruct m1 as [|mp|mp]; [lia| |lia].
    assert (Z.pos (digits2_pos mp) = 53) as Hd1.
    { apply digits2_pos_unique. lia. }
    unfold shr_fexp. cbn [Zdigits2 shr_record_of_loc]. rewrite Hd1.
    assert (fexp 53 1024 (53 + (E + Z.pos pn)) - (E + Z.pos pn) = 0) as ->.
    { unfold fexp, emin. lia. }
    cbn [shr shr_m].
    assert ((E + Z.pos pn <=? 1024 - 53) = true) as -> by (apply Z.leb_le; lia).
    exists mp, (E + Z.pos pn). split; [done|].
    rewrite Z.sub_diag, Z.pow_0_r, Z.mul_1_r.
    split_and!; [by left|lia|lia|]. intros H0. by apply Hrx, Hsrs.
  - subst m1.
    unfold shr_fexp. cbn [shr_record_of_loc].
    change (Zdigits2 (2 ^ 53)) with 54.
    assert (fexp 53 1024 (54 + (E + Z.pos pn)) - (E + Z.pos pn) = 1) as ->.
    { unfold fexp, emin. lia. }
    change (2 ^ 53) with (Z.pos (4503599627370496~0)).
    cbn [shr SpecFloat.iter_pos shr_1 shr_m orb].
    assert ((E + Z.pos pn + 1 <=? 1024 - 53) = true) as ->
      by (apply Z.leb_le; lia).
    exists 4503599627370496%positive, (E + Z.pos pn + 1). split; [done|].
    replace (E + Z.pos pn + 1 - (E + Z.pos pn)) with 1 by lia.
    change (Z.pos 4503599627370496 * 2 ^ 1) with (2 ^ 53).
    split_and!; [by right|lia|lia|].
    intros H0. by apply Hrx, Hsrs.
Qed.


(** A float between 0.5 and 50 is a normal positive number. *)
Lemma valid_radius_finite (r : float) :
  (0.5 <=? r)%float = true → (r <=? 50)%float = true →
  ∃ m e,
    Prim2SF r = S754_finite false m e ∧
    -53 ≤ e ≤ -47 ∧ 2 ^ 52 ≤ Z.pos m < 2 ^ 53 ∧
    (e = -47 → Z.pos m ≤ 7036874417766400).
Proof.
  rewrite !leb_spec. intros Hlo Hhi.
  pose proof (Prim2SF_valid r) as Hv.
  replace (Prim2SF 0.5) with (S754_finite false 4503599627370496 (-53))
    in Hlo by (vm_compute; reflexivity).
  replace (Prim2SF 50) with (S754_finite false 7036874417766400 (-47))
    in Hhi by (vm_compute; reflexivity).
  destruct (Prim2SF r) as [sr|sr| |sr m e];
    [discriminate Hlo
    |destruct sr; [discriminate Hlo|discriminate Hhi]
    |discriminate Hlo
    |].
  destruct sr; [discriminate Hlo|].
  unfold SFleb, SFcompare in Hlo, Hhi.
  unfold valid_binary, bounded, canonical_mantissa in Hv.
  apply andb_prop in Hv as [Hc _]. apply Z.eqb_eq in Hc.
  unfold fexp, emin in Hc. change FloatOps.prec with 53 in Hc.
  change FloatOps.emax with 1024 in Hc.
  assert (-53 ≤ e ≤ -47) as He.
  { destruct (Z.compare_spec (-53) e); destruct (Z.compare_spec e (-47));
      first [lia | discriminate Hlo | discriminate Hhi]. }
  assert (Z.pos (digits2_pos m) = 53) as Hd by lia.
  pose proof (digits2_pos_bounds m) as Hb. rewrite Hd in Hb.
  exists m, e. split; [reflexivity|]. split; [exact He|].
  split; [exact Hb|]. intros ->.
  rewrite Z.compare_refl in Hhi.
  rewrite Pos.compare_cont_spec in Hhi.
  destruct (Pos.compare_spec m 7036874417766400) as [Hm|Hm|Hm].
  - rewrite Hm. apply Z.le_refl.
  - apply Z.lt_le_incl. exact Hm.
  - discriminate Hhi.
Qed.

(** Evaluate the closed exponents, powers of two and sign tests. *)
Ltac eval_closed :=
  repeat match goal with
         | |- context [Z.pow 2 ?x] =>
             let v := eval vm_compute in (Z.pow 2 x) in
             progress (replace (Z.pow 2 x) with v in *
                         by (vm_compute; reflexivity))
         | H : context [Z.pow 2 ?x] |- _ =>
             let v := eval vm_compute in (Z.pow 2 x) in
             progress (replace (Z.pow 2 x) with v in *
                         by (vm_compute; reflexivity))
         | |- context [Z.leb 0 ?x] =>
             let v := eval vm_compute in (Z.leb 0 x) in
             progress (replace (Z.leb 0 x) with v
                         by (vm_compute; reflexivity))
         end;
  cbv iota.

(** For a radius that passes the bounds of the route, [int(radius_km *
    1000)] raises nothing and lies between 500 and 50000. *)
Lemma radius_m_in_range (r : float) :
  (0.5 <=? r)%float = true → (r <=? 50)%float = true →
  ∃ z, int_of_float (r * 1000)%float = Return z ∧ 500 ≤ z ≤ 50000.
Proof.
  intros Hlo Hhi.
  destruct (valid_radius_finite r Hlo Hhi) as (m & e & Hr & He & Hm & Hm50).
  unfold int_of_float. rewrite mul_spec, Hr.
  replace (Prim2SF 1000) with (S754_finite false 8796093022208000 (-43))
    by (vm_compute; reflexivity).
  unfold SF64mul, SFmul. cbn [xorb].
  change FloatOps.prec with 53. change FloatOps.emax with 1024.
  set (M := (m * 8796093022208000)%positive).
  assert (Z.pos M = Z.pos m * 8796093022208000) as HMv
    by (unfold M; apply Pos2Z.inj_mul).
  clearbody M.
  assert (e = -53 ∨ e = -52 ∨ e = -51 ∨ e = -50 ∨ e = -49 ∨ e = -48 ∨
          e = -47) as Hcases by lia.
  assert (∃ d, (d = 105 ∨ d = 106) ∧ 2 ^ (d - 1) ≤ Z.pos M < 2 ^ d)
    as (d & Hd & HdM).
  { destruct (Z.lt_ge_cases (Z.pos M) (2 ^ 105)); [exists 105|exists 106];
      (split; [auto|lia]). }
  pose proof HdM as HMb. apply digits2_pos_unique in HdM.
  destruct (binary_round_aux_finite M (e + -43) d HdM)
    as (m2 & e2 & -> & He2 & HX & Hex); [lia..|].
  eexists. split; [reflexivity|].
  destruct Hcases as [->|[->|[->|[->|[->|[->| ->]]]]]];
    destruct Hd as [-> | ->]; destruct He2 as [-> | ->].
  all: eval_closed.
  all: clear Hlo Hhi Hr HdM He.
  all: Z.div_mod_to_equations; lia.
Qed.

(** * Further properties of the code *)

Lemma valid_args_radius (radius_km : float) (max_results : Z) :
  valid_args radius_km max_results = true →
  ∃ z, int_of_float (radius_km * 1000)%float = Return z ∧ 500 ≤ z ≤ 50000.
Proof.
  unfold valid_args. rewrite !andb_true_iff.
  intros [[[Hlo Hhi] _] _]. by apply radius_m_in_range.
Qed.

Section Route.

Context {rt : Runtime}.

(** The whole run of the handler for arguments within the declared
    bounds. *)
Lemma api_search_run (q : string) (radius_km : float) (max_results : Z)
    (log : list request) :
  valid_args radius_km max_results = true →
  ∃ radius_m,
    500 ≤ radius_m ≤ 50000 ∧
    int_of_float (radius_km * 1000)%float = Return radius_m ∧
    api_search q radius_km max_results log =
    match (geocode_location q []).1 with
    | Raise e => (Raise e, log ++ [geocode_request q])
    | Return None =>
        (Raise (HTTPException 404
                  "Location not found. Try a different search."),
         log ++ [geocode_request q])
    | Return (Some c) =>
        (match spatial web (spatial_request c radius_m max_results) with
         | None => Raise RequestException
         | Some rsp =>
             if status_code rsp =? 200
             then Return (response_of c max_results rsp)
             else Raise (HTTPException 502
                    "Upstream map service error. Please try again later.")
         end,
         log ++ [geocode_request q;
                 spatial_request c radius_m max_results])
    end.
Proof.
  intros Hv. destruct (valid_args_radius _ _ Hv) as (rm & Hrm & Hb).
  exists rm. split_and!; [lia..|done|].
  unfold api_search. rewrite Hv, search_laundromats_run, Hrm. done.
Qed.

Lemma geocode_raises_kind (q : string) (log : list request) (e : exn) :
  (geocode_location q log).1 = Raise e →
  e = RequestException ∨ e = TypeError ∨ e = ValueError.
Proof.
  intros [[_ ->]|(rsp & item & rest & _ & _ & _ & Hf)]%geocode_raises;
    [by left|].
  right. unfold float_ in Hf.
  destruct Hf as [Hf|[_ Hf]];
    [destruct (place_lat item) as [s|]|destruct (place_lon item) as [s|]];
    try destruct (float_of_str s); simplify_eq; auto.
Qed.

(** X1: a search sends nothing when its arguments are out of bounds, and
    otherwise the geocoding request alone or that request followed by one
    request to the spatial database, the latter only after the geocoder
    resolved a center and with a radius between 500 and 50000 meters. *)
Theorem requests_sent (q : string) (radius_km : float) (max_results : Z)
    (log : list request) :
  ∃ sent,
    (api_search q radius_km max_results log).2 = log ++ sent ∧
    (valid_args radius_km max_results = false →
     sent = [] ∧
     (api_search q radius_km max_results log).1
     = Raise RequestValidationError) ∧
    (valid_args radius_km max_results = true →
     (sent = [geocode_request q] ∧
      ∀ c, (geocode_location q log).1 ≠ Return (Some c)) ∨
     ∃ c radius_m,
       500 ≤ radius_m ≤ 50000 ∧
       (geocode_location q log).1 = Return (Some c) ∧
       sent = [geocode_request q;
               spatial_request c radius_m max_results]).
Proof.
  destruct (valid_args radius_km max_results) eqn:Hv.
  - destruct (api_search_run q radius_km max_results log Hv)
      as (rm & Hb & _ & ->).
    rewrite (geocode_location_run q log). simpl.
    destruct (geocode_location q []).1 as [[c|]|e]; simpl.
    + eexists. split; [done|]. split; [done|]. intros _. right.
      by exists c, rm.
    + eexists. split; [done|]. split; [done|]. intros _. by left.
    + eexists. split; [done|]. split; [done|]. intros _. by left.
  - unfold api_search. rewrite Hv. exists []. simpl.
    rewrite app_nil_r. done.
Qed.

(** X2: an [HTTPException] of the search is one of the two the handler
    raises, and each has one cause.  The 404 "Location not found" comes
    only after the arguments were accepted and the geocoder answered with
    a status other than 200 or with no match, the geocoding request being
    the only one sent; the 502 "Upstream map service error" comes only
    after the geocoder resolved a center and the spatial database
    answered the one request sent to it with a status other than 200. *)
Theorem http_error_causes (q : string) (radius_km : float)
    (max_results : Z) (log : list request) (status : Z) (detail : string) :
  (api_search q radius_km max_results log).1
  = Raise (HTTPException status detail) →
  valid_args radius_km max_results = true ∧
  ((status = 404 ∧
    detail = "Location not found. Try a different search." ∧
    (∃ rsp, geocoder web (geocode_request q) = Some rsp ∧
            (status_code rsp ≠ 200 ∨ json rsp = [])) ∧
    (api_search q radius_km max_results log).2
    = log ++ [geocode_request q]) ∨
   (status = 502 ∧
    detail = "Upstream map service error. Please try again later." ∧
    ∃ c radius_m rsp,
      (geocode_location q log).1 = Return (Some c) ∧
      500 ≤ radius_m ≤ 50000 ∧
      spatial web (spatial_request c radius_m max_results) = Some rsp ∧
      status_code rsp ≠ 200 ∧
      (api_search q radius_km max_results log).2
      = log ++ [geocode_request q;
                spatial_request c radius_m max_results])).
Proof.
  destruct (valid_args radius_km max_results) eqn:Hv.
  - destruct (api_search_run q radius_km max_results log Hv)
      as (rm & Hb & _ & ->).
    rewrite (geocode_location_run q log). simpl.
    destruct (geocode_location q []).1 as [[c|]|e'] eqn:Hg; simpl.
    + destruct (spatial web _) as [rsp|] eqn:Hsp; [|done].
      destruct (Z.eqb_spec (status_code rsp) 200) as [|Hs]; [done|].
      intros [= <- <-]. split; [done|]. right.
      split_and!; [done..|]. by exists c, rm, rsp.
    + intros [= <- <-]. split; [done|]. left.
      split_and!; [done..| |done]. by apply (geocode_NotFound q []).
    + intros [= ->].
      by destruct (geocode_raises_kind q [] _ Hg) as [?|[?|?]].
  - unfold api_search. rewrite Hv. done.
Qed.

(** X3: for arguments the route accepts, the radius in meters
    [int(radius_km * 1000)] exists, is the truncation of the float product
    and lies between 500 and 50000. *)
Theorem valid_radius_in_meters (radius_km : float) (max_results : Z) :
  valid_args radius_km max_results = true →
  ∃ radius_m,
    int_of_float (radius_km * 1000)%float = Return radius_m ∧
    Spec.truncation (radius_km * 1000)%float radius_m ∧
    500 ≤ radius_m ≤ 50000.
Proof.
  intros (z & Hz & Hb)%valid_args_radius. exists z.
  split_and!; [done| |lia..]. by apply int_of_float_truncation.
Qed.

(** X4: the handler [search_laundromats], called with arguments within
    the declared bounds, returns its dict whenever the geocoder answers
    200 with a first match whose coordinates convert and the spatial
    database answers 200 with elements typed as documented: the center is
    the first match, the results are those of the elements of the reply,
    and exactly the two requests were sent.  (What FastAPI makes of the
    returned dict is outside this statement.) *)
Theorem handler_returns_when_upstream_ok (q : string) (radius_km : float)
    (max_results : Z) (log : list request) (rsp : Response (list Place))
    (item : Place) (rest : list Place) (la lo : float) :
  valid_args radius_km max_results = true →
  geocoder web (geocode_request q) = Some rsp →
  status_code rsp = 200 →
  json rsp = item :: rest →
  float_ (place_lat item) = Return la →
  float_ (place_lon item) = Return lo →
  (∀ rq, ∃ rsp2, spatial web rq = Some rsp2 ∧ status_code rsp2 = 200) →
  ∃ radius_m rsp2,
    let c := {| c_lat := la; c_lon := lo;
                c_display_name := place_display_name item |} in
    500 ≤ radius_m ≤ 50000 ∧
    spatial web (spatial_request c radius_m max_results) = Some rsp2 ∧
    search_laundromats q radius_km max_results log
    = (Return (response_of c max_results rsp2),
       log ++ [geocode_request q;
               spatial_request c radius_m max_results]).
Proof.
  intros Hv Hg Hs Hj Hla Hlo Hsp.
  destruct (valid_args_radius _ _ Hv) as (rm & Hrm & Hb).
  rewrite search_laundromats_run, Hrm.
  set (c := {| c_lat := la; c_lon := lo;
               c_display_name := place_display_name item |}).
  assert ((geocode_location q []).1 = Return (Some c)) as ->.
  { apply geocode_found. by exists rsp, item, rest, la, lo. }
  destruct (Hsp (spatial_request c rm max_results)) as (rsp2 & Hr2 & Hs2).
  exists rm, rsp2. split_and!; [lia..|done|].
  simpl. rewrite Hr2. by apply Z.eqb_eq in Hs2 as ->.
Qed.

(** X5: once the geocoder has resolved a center, a spatial database that
    answers with a status other than 200 makes the route raise the 502,
    whatever the body, and one that cannot be reached makes it raise the
    transport error; both requests were sent and no response is built. *)
Theorem spatial_failure (q : string) (radius_km : float) (max_results : Z)
    (log : list request) (c : Center) :
  valid_args radius_km max_results = true →
  (geocode_location q log).1 = Return (Some c) →
  (∀ rq rsp, spatial web rq = Some rsp → status_code rsp ≠ 200) →
  ∃ radius_m,
    500 ≤ radius_m ≤ 50000 ∧
    api_search q radius_km max_results log
    = (match spatial web (spatial_request c radius_m max_results) with
       | Some _ =>
           Raise (HTTPException 502
                    "Upstream map service error. Please try again later.")
       | None => Raise RequestException
       end,
       log ++ [geocode_request q;
               spatial_request c radius_m max_results]).
Proof.
  intros Hv Hg Hbad.
  destruct (api_search_run q radius_km max_results log Hv)
    as (rm & Hb & _ & ->).
  rewrite geocode_location_run in Hg. simpl in Hg. rewrite Hg.
  exists rm. split; [done|].
  destruct (spatial web _) as [rsp|] eqn:Hsp; [|done].
  apply Hbad in Hsp. by apply Z.eqb_neq in Hsp as ->.
Qed.

End Route.

(** ** The geocoder reads the first match only *)

Lemma geocode_first (rt : Runtime) (q : string) (log : list request)
    (rsp : Response (list Place)) (item : Place) (rest : list Place) :
  geocoder web (geocode_request q) = Some rsp →
  status_code rsp = 200 → json rsp = item :: rest →
  (geocode_location q log).1 =
  match float_ (place_lat item) with
  | Return la =>
      match float_ (place_lon item) with
      | Return lo =>
          Return (Some {| c_lat := la; c_lon := lo;
                          c_display_name := place_display_name item |})
      | Raise e => Raise e
      end
  | Raise e => Raise e
  end.
Proof.
  intros Hg Hs Hj.
  destruct (float_ (place_lat item)) as [la|e] eqn:Hla.
  - destruct (float_ (place_lon item)) as [lo|e] eqn:Hlo.
    + apply geocode_found. by exists rsp, item, rest, la, lo.
    + apply geocode_raises. right. exists rsp, item, rest.
      split_and!; [done..|]. right. split; [by exists la|done].
  - apply geocode_raises. right. exists rsp, item, rest.
    split_and!; [done..|]. by left.
Qed.

(** X6: of the matches the geocoder returns only the first is read: two
    upstreams whose replies to the query are 200 and begin with the same
    match give the same outcome, whatever follows that match. *)
Theorem geocode_first_match (rt1 rt2 : Runtime) (q : string)
    (log1 log2 : list request) (rsp1 rsp2 : Response (list Place))
    (item : Place) (rest1 rest2 : list Place) :
  float_of_str (Runtime := rt1) = float_of_str (Runtime := rt2) →
  geocoder (web (Runtime := rt1)) (geocode_request (rt := rt1) q)
    = Some rsp1 →
  status_code rsp1 = 200 → json rsp1 = item :: rest1 →
  geocoder (web (Runtime := rt2)) (geocode_request (rt := rt2) q)
    = Some rsp2 →
  status_code rsp2 = 200 → json rsp2 = item :: rest2 →
  (geocode_location (rt := rt1) q log1).1
  = (geocode_location (rt := rt2) q log2).1.
Proof.
  intros Hf Hg1 Hs1 Hj1 Hg2 Hs2 Hj2.
  rewrite (geocode_first rt1 q log1 rsp1 item rest1) by done.
  rewrite (geocode_first rt2 q log2 rsp2 item rest2) by done.
  unfold float_. by rewrite Hf.
Qed.

(** ** Truncation and count *)

Lemma slice_to_take {A : Type} (n : Z) (l : list A) :
  0 ≤ n → slice_to n l = take (Z.to_nat n) l.
Proof. intros Hn. unfold slice_to. by destruct (Z.leb_spec 0 n); [|lia]. Qed.

Lemma length_omap_normalize (elements : list Element) :
  length (omap normalize elements) = length (filter locatable elements).
Proof.
  induction elements as [|el els IH]; [done|].
  rewrite filter_cons.
  change (omap normalize (el :: els))
    with (match normalize el with
          | Some r => r :: omap normalize els
          | None => omap normalize els
          end).
  destruct (normalize el) as [r|] eqn:Hn.
  - apply normalize_Some in Hn as (la & lo & Hc & _).
    rewrite decide_True; [cbn [length]; by f_equal|].
    unfold locatable. rewrite Hc. simpl. eauto.
  - apply normalize_None in Hn.
    rewrite decide_False; [done|].
    unfold locatable. intros [[? H1] [? H2]].
    destruct Hn as [Hn|Hn]; congruence.
Qed.

Lemma response_of_results_eq (c : Center) (max_results : Z)
    (rsp : Response Overpass) :
  0 ≤ max_results →
  results (response_of c max_results rsp)
  = take (Z.to_nat max_results)
      (sorted name (omap normalize (default [] (ov_elements (json rsp))))).
Proof.
  intros Hm. unfold response_of. simpl.
  by rewrite collect_sorted_by_name, collect_omap, slice_to_take.
Qed.

Section Ranking.

Context {rt : Runtime}.

(** X7: the results of a response are the first entries of a reordering
    of everything the elements of the reply normalize to, and no entry left
    out by the cap has a name below that of an entry kept. *)
Theorem truncation_keeps_least (q : string) (radius_km : float)
    (max_results : Z) (log log' : list request) (resp : SearchResponse) :
  api_search q radius_km max_results log = (Return resp, log') →
  ∃ c radius_m rsp rest,
    spatial web (spatial_request c radius_m max_results) = Some rsp ∧
    results resp ++ rest
    ≡ₚ omap normalize (default [] (ov_elements (json rsp))) ∧
    ∀ a b, a ∈ results resp → b ∈ rest → (name a ≤ name b)%string.
Proof.
  intros [Hv (c & rm & rsp & _ & _ & Hsp & _ & -> & _)%search_returns]
    %api_search_returns.
  apply valid_args_max_results in Hv.
  set (all := omap normalize (default [] (ov_elements (json rsp)))).
  exists c, rm, rsp, (drop (Z.to_nat max_results) (sorted name all)).
  rewrite response_of_results_eq by lia. fold all.
  split_and!; [done| |].
  - by rewrite take_drop, sorted_perm.
  - intros a b Ha Hb.
    eapply (StronglySorted_app_1_elem_of (key_le name)); [|exact Ha|exact Hb].
    rewrite take_drop. apply sorted_sorted.
Qed.

(** X8: the count of a response is the smaller of [max_results] and the
    number of elements of the reply with both coordinates; when that number
    does not exceed [max_results] nothing is cut off, and the results are
    all the normalized elements in the order of their names. *)
Theorem count_formula (q : string) (radius_km : float)
    (max_results : Z) (log log' : list request) (resp : SearchResponse) :
  api_search q radius_km max_results log = (Return resp, log') →
  ∃ c radius_m rsp,
    spatial web (spatial_request c radius_m max_results) = Some rsp ∧
    count resp
    = Z.min max_results
        (len (filter locatable (default [] (ov_elements (json rsp))))) ∧
    (len (filter locatable (default [] (ov_elements (json rsp))))
       ≤ max_results →
     results resp
     = sorted name
         (omap normalize (default [] (ov_elements (json rsp))))).
Proof.
  intros [Hv (c & rm & rsp & _ & _ & Hsp & _ & -> & _)%search_returns]
    %api_search_returns.
  apply valid_args_max_results in Hv.
  exists c, rm, rsp. split; [done|].
  assert (count (response_of c max_results rsp)
          = len (results (response_of c max_results rsp))) as -> by done.
  rewrite response_of_results_eq by lia.
  set (all := omap normalize (default [] (ov_elements (json rsp)))).
  assert (length (sorted name all)
          = length (filter locatable (default [] (ov_elements (json rsp)))))
    as Hlen.
  { rewrite (Permutation_length (sorted_perm name all)).
    apply length_omap_normalize. }
  unfold len. rewrite length_take, Hlen. split; [lia|].
  intros Hle. apply take_ge. rewrite Hlen. lia.
Qed.

(** X9: the text of the query reaches the spatial database through the
    resolved center only: two queries that the geocoder resolves to the
    same center lead to the same outcome and, after their own geocoding
    request, to the same further requests. *)
Theorem query_text_not_forwarded (q1 q2 : string) (radius_km : float)
    (max_results : Z) (log1 log2 : list request) (c : Center) :
  (geocode_location q1 log1).1 = Return (Some c) →
  (geocode_location q2 log2).1 = Return (Some c) →
  ∃ out post,
    search_laundromats q1 radius_km max_results log1
    = (out, log1 ++ geocode_request q1 :: post) ∧
    search_laundromats q2 radius_km max_results log2
    = (out, log2 ++ geocode_request q2 :: post).
Proof.
  intros H1 H2. rewrite geocode_location_run in H1, H2. simpl in H1, H2.
  rewrite !search_laundromats_run, H1, H2.
  destruct (int_of_float _) as [rm|e]; simpl; eauto.
Qed.

End Ranking.

(** ** [build_address] and the optional fields *)

Lemma address_key_elem (k : string) :
  k ∈ address_keys ↔
  k = "addr:housenumber" ∨ k = "addr:street" ∨ k = "addr:city" ∨
  k = "addr:town" ∨ k = "addr:village" ∨ k = "addr:state" ∨
  k = "addr:province" ∨ k = "addr:postcode".
Proof. unfold address_keys. rewrite !elem_of_cons, elem_of_nil. tauto. Qed.

(** X10: the address depends on the eight address tags only: tag maps
    that agree on them give the same address, so that setting any other
    tag changes nothing. *)
Theorem build_address_frame (tags1 tags2 : Tags) :
  (∀ k, k ∈ address_keys → tags1 !! k = tags2 !! k) →
  build_address tags1 = build_address tags2.
Proof.
  intros H. unfold build_address.
  rewrite !(H "addr:housenumber"), !(H "addr:street"), !(H "addr:city"),
    !(H "addr:town"), !(H "addr:village"), !(H "addr:state"),
    !(H "addr:province"), !(H "addr:postcode");
    try (apply address_key_elem; tauto).
  done.
Qed.

(** X11: a housenumber without a street is left out: when the street tag
    is missing or empty, whatever the housenumber tag holds, the address is
    the one without it. *)
Theorem housenumber_needs_street (tags : Tags) (num : string) :
  truthy_str (tags !! "addr:street") = None →
  build_address (<["addr:housenumber" := num]> tags)
  = build_address (delete "addr:housenumber" tags).
Proof.
  intros Hs. unfold build_address.
  rewrite lookup_insert_eq, lookup_delete_eq.
  rewrite !lookup_insert_ne, !lookup_delete_ne by done.
  by rewrite Hs.
Qed.

(** X12: the phone of a result is the [phone] tag when that is not empty
    and otherwise the [contact:phone] tag as it is, empty string included;
    so it is null exactly when [phone] is missing or empty and
    [contact:phone] is missing.  The same holds of the website, and the
    address is the empty string exactly when no address segment is present
    and [addr:full] is empty. *)
Theorem contact_fallback (el : Element) (r : Result) :
  normalize el = Some r →
  let tags := default ∅ (el_tags el) in
  (phone r = match Spec.present tags "phone" with
             | Some p => Some p
             | None => tags !! "contact:phone"
             end) ∧
  (website r = match Spec.present tags "website" with
               | Some w => Some w
               | None => tags !! "contact:website"
               end) ∧
  (phone r = None ↔
   Spec.present tags "phone" = None ∧ tags !! "contact:phone" = None) ∧
  (address r = Some EmptyString ↔
   Spec.structured_address tags = None ∧
   tags !! "addr:full" = Some EmptyString).
Proof.
  intros (la & lo & _ & ->)%normalize_Some. simpl.
  set (tags := default ∅ (el_tags el)).
  assert (∀ a b, or_ a b = match truthy_str a with
                           | Some s => Some s
                           | None => b
                           end) as Hor.
  { intros a b. unfold or_, truthy. by destruct a as [[|x s]|]. }
  rewrite !Hor, !truthy_str_present.
  split_and!; [done|done| |].
  - destruct (Spec.present tags "phone"); [|tauto].
    split; [done|by intros [? _]].
  - rewrite <-Hor, address_fallback. unfold Spec.address_of.
    pose proof (structured_address_nonempty tags) as Hne.
    destruct (Spec.structured_address tags) as [a|]; [|tauto].
    split; [congruence|by intros [? _]].
Qed.

(** X13: an element of type "node" never falls back to its [center]: it
    is normalized from its own [lat] and [lon] whatever the center, and is
    dropped when one of them is missing; an element of another type is
    normalized from its center whatever its own [lat] and [lon]. *)
Theorem node_ignores_center (el : Element) :
  (el_type el = Some "node" →
   (∀ center_obj,
      normalize {| el_type := el_type el; el_id := el_id el;
                   el_lat := el_lat el; el_lon := el_lon el;
                   el_center := center_obj; el_tags := el_tags el |}
      = normalize el) ∧
   (el_lat el = None ∨ el_lon el = None → normalize el = None)) ∧
  (el_type el ≠ Some "node" →
   ∀ la lo,
     normalize {| el_type := el_type el; el_id := el_id el;
                  el_lat := la; el_lon := lo;
                  el_center := el_center el; el_tags := el_tags el |}
     = normalize el).
Proof.
  split.
  - intros Ht. split.
    + intros co. unfold normalize, coordinates. simpl.
      by rewrite !decide_True by done.
    + intros Hm. apply normalize_None. unfold coordinates.
      rewrite decide_True by done. simpl. done.
  - intros Ht la lo. unfold normalize, coordinates. simpl.
    by rewrite !decide_False by done.
Qed.

(** ** The healthcheck *)

(** X14: the healthcheck reports a variable as set exactly when it is
    defined and not empty, and its answer depends on nothing else: the
    values of DATABASE_URL and DATABASE_NAME never appear in it. *)
Theorem healthcheck_reveals_nothing (env1 env2 : Env) :
  truthy (env1 !! "DATABASE_URL") = truthy (env2 !! "DATABASE_URL") →
  truthy (env1 !! "DATABASE_NAME") = truthy (env2 !! "DATABASE_NAME") →
  test_database env1 = test_database env2 ∧
  (database_url (test_database env1) = Some "✅ Set" ↔
   ∃ v, env1 !! "DATABASE_URL" = Some v ∧ v ≠ EmptyString) ∧
  (database_name (test_database env1) = Some "✅ Set" ↔
   ∃ v, env1 !! "DATABASE_NAME" = Some v ∧ v ≠ EmptyString).
Proof.
  intros Hu Hn. unfold test_database, getenv. simpl.
  split; [by rewrite Hu, Hn|].
  unfold truthy.
  split.
  - destruct (env1 !! "DATABASE_URL") as [[|x s]|]; simpl;
      split; try done; eauto; by intros (? & [= <-] & ?).
  - destruct (env1 !! "DATABASE_NAME") as [[|x s]|]; simpl;
      split; try done; eauto; by intros (? & [= <-] & ?).
Qed.

(** ** The order of the upstream elements *)

Lemma sorted_names_perm (l1 l2 : list Result) :
  l1 ≡ₚ l2 → name <$> sorted name l1 = name <$> sorted name l2.
Proof.
  intros Hp. apply (StronglySorted_unique String.le).
  - eapply StronglySorted_fmap; [|apply (sorted_sorted name)]. done.
  - eapply StronglySorted_fmap; [|apply (sorted_sorted name)]. done.
  - by rewrite !sorted_perm, Hp.
Qed.

(** X15: the order in which the spatial database lists the elements
    shows in a response only among results of the same name: two replies
    with the same elements in different orders give the same count and the
    same sequence of names. *)
Theorem names_order_independent (c : Center) (max_results : Z)
    (rsp1 rsp2 : Response Overpass) :
  0 ≤ max_results →
  default [] (ov_elements (json rsp1))
  ≡ₚ default [] (ov_elements (json rsp2)) →
  name <$> results (response_of c max_results rsp1)
  = name <$> results (response_of c max_results rsp2) ∧
  count (response_of c max_results rsp1)
  = count (response_of c max_results rsp2).
Proof.
  intros Hm Hp.
  assert (name <$> results (response_of c max_results rsp1)
          = name <$> results (response_of c max_results rsp2)) as Hn.
  { rewrite !response_of_results_eq, !fmap_take by done.
    f_equal. apply sorted_names_perm. by rewrite Hp. }
  split; [done|].
  change (len (results (response_of c max_results rsp1))
          = len (results (response_of c max_results rsp2))).
  unfold len. f_equal.
  by rewrite <-(length_fmap name), Hn, length_fmap.
Qed.

(** ** The further properties on the fixtures *)

Lemma http_error_causes_witness :
  (api_search (rt := Fixture.runtime Cases.overloaded)
     "Springfield" 5 50 []).1
  = Raise (HTTPException 502
             "Upstream map service error. Please try again later.") ∧
  ∃ c radius_m rsp,
    spatial Cases.overloaded
      (spatial_request (rt := Fixture.runtime Cases.overloaded)
         c radius_m 50) = Some rsp ∧
    status_code rsp ≠ 200.
Proof.
  split; [vm_compute; reflexivity|].
  destruct (http_error_causes (rt := Fixture.runtime Cases.overloaded)
              "Springfield" 5 50 [] 502
              "Upstream map service error. Please try again later.")
    as [_ [(Hs & _)|(_ & _ & c & rm & rsp & _ & _ & Hsp & Hne & _)]].
  - vm_compute. reflexivity.
  - discriminate Hs.
  - exists c, rm, rsp. split; [exact Hsp|exact Hne].
Defined.

Lemma valid_radius_in_meters_witness :
  valid_args 1.234375 3 = true ∧
  ∃ radius_m,
    int_of_float (1.234375 * 1000)%float = Return radius_m ∧
    Spec.truncation (1.234375 * 1000)%float radius_m ∧
    500 ≤ radius_m ≤ 50000.
Proof.
  split; [vm_compute; reflexivity|].
  apply (valid_radius_in_meters 1.234375 3). vm_compute. reflexivity.
Defined.

Lemma handler_returns_when_upstream_ok_witness :
  ∃ radius_m rsp2,
    500 ≤ radius_m ≤ 50000 ∧
    spatial Fixture.found
      (spatial_request (rt := Fixture.runtime Fixture.found)
         Fixture.center radius_m 3) = Some rsp2 ∧
    search_laundromats (rt := Fixture.runtime Fixture.found)
      "Springfield" 1.234375 3 []
    = (Return (response_of Fixture.center 3 rsp2),
       [geocode_request (rt := Fixture.runtime Fixture.found) "Springfield";
        spatial_request (rt := Fixture.runtime Fixture.found)
          Fixture.center radius_m 3]).
Proof.
  apply (handler_returns_when_upstream_ok (rt := Fixture.runtime Fixture.found)
           "Springfield" 1.234375 3 []
           {| status_code := 200; json := [Fixture.springfield] |}
           Fixture.springfield [] 39.75 (-89.5));
    try (vm_compute; reflexivity).
  intros rq. eexists. split; reflexivity.
Defined.

Lemma spatial_failure_witness :
  ∃ radius_m,
    500 ≤ radius_m ≤ 50000 ∧
    api_search (rt := Fixture.runtime Cases.overloaded)
      "Springfield" 5 50 []
    = (Raise (HTTPException 502
                "Upstream map service error. Please try again later."),
       [geocode_request (rt := Fixture.runtime Cases.overloaded)
          "Springfield";
        spatial_request (rt := Fixture.runtime Cases.overloaded)
          Fixture.center radius_m 50]).
Proof.
  apply (spatial_failure (rt := Fixture.runtime Cases.overloaded)
           "Springfield" 5 50 [] Fixture.center);
    try (vm_compute; reflexivity).
  intros rq rsp [= <-]. simpl. discriminate.
Defined.

Lemma geocode_first_match_witness :
  (geocode_location (rt := Fixture.runtime Fixture.found)
     "Springfield" []).1
  = (geocode_location (rt := Fixture.runtime Cases.two_matches)
       "Springfield" []).1.
Proof.
  apply (geocode_first_match (Fixture.runtime Fixture.found)
           (Fixture.runtime Cases.two_matches) "Springfield" [] []
           {| status_code := 200; json := [Fixture.springfield] |}
           {| status_code := 200;
              json := [Fixture.springfield; Fixture.malformed] |}
           Fixture.springfield [] [Fixture.malformed]);
    reflexivity.
Defined.

Lemma truncation_keeps_least_witness :
  ∃ c radius_m rsp rest,
    spatial Fixture.found
      (spatial_request (rt := Fixture.runtime Fixture.found)
         c radius_m 3) = Some rsp ∧
    results Fixture.response ++ rest
    ≡ₚ omap normalize (default [] (ov_elements (json rsp))) ∧
    ∀ a b, a ∈ results Fixture.response → b ∈ rest →
           (name a ≤ name b)%string.
Proof.
  apply (truncation_keeps_least (rt := Fixture.runtime Fixture.found)
           "Springfield" 1.234375 3 [] Fixture.sent Fixture.response).
  vm_compute. reflexivity.
Defined.

Lemma count_formula_witness :
  ∃ c radius_m rsp,
    spatial Fixture.found
      (spatial_request (rt := Fixture.runtime Fixture.found)
         c radius_m 3) = Some rsp ∧
    count Fixture.response
    = Z.min 3 (len (filter locatable
                      (default [] (ov_elements (json rsp))))) ∧
    (len (filter locatable (default [] (ov_elements (json rsp)))) ≤ 3 →
     results Fixture.response
     = sorted name (omap normalize (default [] (ov_elements (json rsp))))).
Proof.
  apply (count_formula (rt := Fixture.runtime Fixture.found)
           "Springfield" 1.234375 3 [] Fixture.sent Fixture.response).
  vm_compute. reflexivity.
Defined.

Lemma query_text_not_forwarded_witness :
  ∃ out post,
    search_laundromats (rt := Fixture.runtime Fixture.found)
      "Springfield" 5 50 []
    = (out, [] ++ geocode_request (rt := Fixture.runtime Fixture.found)
                    "Springfield" :: post) ∧
    search_laundromats (rt := Fixture.runtime Fixture.found)
      "Springfield, Illinois" 5 50 []
    = (out, [] ++ geocode_request (rt := Fixture.runtime Fixture.found)
                    "Springfield, Illinois" :: post).
Proof.
  apply (query_text_not_forwarded (rt := Fixture.runtime Fixture.found)
           "Springfield" "Springfield, Illinois" 5 50 [] []
           Fixture.center);
    vm_compute; reflexivity.
Defined.

Lemma build_address_frame_witness :
  build_address (<["phone" := "555-0100"]> Fixture.clean_co_tags)
  = build_address Fixture.clean_co_tags.
Proof.
  apply (build_address_frame (<["phone" := "555-0100"]> Fixture.clean_co_tags)
           Fixture.clean_co_tags).
  intros k Hk. apply lookup_insert_ne.
  apply address_key_elem in Hk.
  destruct Hk as [->|[->|[->|[->|[->|[->|[->| ->]]]]]]]; discriminate.
Defined.

Lemma housenumber_needs_street_witness :
  build_address (<["addr:housenumber" := "12"]>
                   {["addr:city" := "Springfield"]})
  = build_address (delete "addr:housenumber"
                     ({["addr:city" := "Springfield"]} : Tags)).
Proof.
  apply (housenumber_needs_street {["addr:city" := "Springfield"]} "12").
  vm_compute. reflexivity.
Defined.

Lemma contact_fallback_witness :
  ∃ r, normalize Cases.empty_contact = Some r ∧
       phone r = Some EmptyString ∧
       website r = Some "https://wash.example".
Proof.
  eexists. split; [reflexivity|].
  destruct (contact_fallback Cases.empty_contact _ eq_refl)
    as (Hp & Hw & _).
  split; [exact Hp|exact Hw].
Defined.

Lemma healthcheck_reveals_nothing_witness :
  test_database {["DATABASE_URL" := "postgres://user:secret@db/prod"]}
  = test_database {["DATABASE_URL" := "x"]}.
Proof.
  apply (healthcheck_reveals_nothing
           {["DATABASE_URL" := "postgres://user:secret@db/prod"]}
           {["DATABASE_URL" := "x"]});
    vm_compute; reflexivity.
Defined.

Lemma names_order_independent_witness :
  name <$> results
    (response_of Fixture.center 3
       {| status_code := 200;
          json := {| ov_elements := Some Fixture.elements |} |})
  = name <$> results
      (response_of Fixture.center 3
         {| status_code := 200;
            json := {| ov_elements := Some (reverse Fixture.elements) |} |}).
Proof.
  apply (names_order_independent Fixture.center 3
           {| status_code := 200;
              json := {| ov_elements := Some Fixture.elements |} |}
           {| status_code := 200;
              json := {| ov_elements := Some (reverse Fixture.elements) |} |}).
  - lia.
  - simpl. by rewrite reverse_Permutation.
Defined.
